(** * hubot-db-heimdall: temporary database access

    A shallow embedding of [src/db_heimdall.js], the Hubot script that hands
    out Vault database credentials and opens the database security group for
    the address that visits a one-time confirmation link, together with the
    properties of its two handlers:

    - the route [GET /heimdall/access/:nonce]  ([access_handler]);
    - the chat command [give me <level> access to <env> database]
      ([respond_handler] and its HTTP callback [vault_callback]).

    Conventions of the embedding.

    - JavaScript values are the type [JsVal] (JSON-shaped values and
      [undefined]).  Numbers are [JsNum]: the doubles whose value is an
      integer ([Int z], for [z] a value a double holds: every integer of
      magnitude below 2^53, and beyond it the integers a double rounds to),
      the two infinities and [NaN].  Products and differences are rounded
      as doubles are, and numbers print as JavaScript prints them.
      Fractions and the sign of zero are outside the model: the one
      quotient of the script is floored at once, a body of Vault with a
      fraction in it has no counterpart here, and [util.format] prints
      both zeros alike.  A clock reads an integer of magnitude below
      2^53.
    - Strings are [string]: sequences of 8-bit code units, as HTTP header
      values and [\w+] command tokens are.
    - The handlers run in the monad [Js]: the Hubot brain is threaded as
      state, every externally visible action is appended to a trace, and a
      JavaScript exception ends the run.
    - What the script takes from its environment without defining it is a
      parameter: the built-ins of the class [Runtime], the [CONFIG] strings,
      and, per run, the clock, the error the security-group call passes to
      its callback, and the triple Vault's HTTP client passes to its. *)

From Stdlib Require Import ZArith Ascii String List DecimalString Lia.
From stdpp Require Import base gmap strings list.

Set Warnings "-register-all".

Local Open Scope Z_scope.
Local Open Scope string_scope.

(** ** JavaScript values *)

Inductive JsNum : Type :=
  | NaN
  | Int (z : Z)
  | Inf (negative : bool).

(** [JObj fields]: the own properties of an object, in the order
    [for .. in] enumerates them. *)
Inductive JsVal : Type :=
  | JUndefined
  | JNull
  | JBool (b : bool)
  | JNum (n : JsNum)
  | JStr (s : string)
  | JArr (items : list JsVal)
  | JObj (fields : list (string * JsVal)).

(** The strings [typeof] can answer on a [JsVal]. *)
Inductive JsType : Type :=
  | TUndefined | TObject | TBoolean | TNumber | TString.

#[global] Instance JsType_eq_dec : EqDecision JsType.
Proof. solve_decision. Defined.

Definition typeof (v : JsVal) : JsType :=
  match v with
  | JUndefined => TUndefined
  | JNull => TObject
  | JBool _ => TBoolean
  | JNum _ => TNumber
  | JStr _ => TString
  | JArr _ | JObj _ => TObject
  end.

Definition is_null (v : JsVal) : bool :=
  match v with JNull => true | _ => false end.

(** [v != null] of CoffeeScript's existential operator. *)
Definition is_nullish (v : JsVal) : bool :=
  match v with JUndefined | JNull => true | _ => false end.

(** ToBoolean. *)
Definition truthy (v : JsVal) : bool :=
  match v with
  | JUndefined | JNull => false
  | JBool b => b
  | JNum NaN => false
  | JNum (Int z) => negb (Z.eqb z 0)
  | JNum (Inf _) => true
  | JStr s => negb (String.eqb s "")
  | JArr _ | JObj _ => true
  end.

(** Built-ins of the JavaScript runtime and of Node that the script calls
    and that are kept abstract. *)
Class Runtime : Type := {
  (** ToNumber on a string. *)
  StringToNumber : string -> JsNum;
  (** [JSON.parse]; [None] when it throws a [SyntaxError].  The fields of a
      parsed object are listed in [for .. in] order. *)
  JSON_parse : string -> option JsVal;
  (** [JSON.stringify], already converted to the string [util.format]
      inserts for [%j]. *)
  JSON_stringify : JsVal -> string;
  (** [util.inspect]. *)
  util_inspect : JsVal -> string
}.

(** ** Numbers *)


(** The double nearest to the integer [z] (ties to the even mantissa of 53
    bits), infinite from 2^1024 on. *)
Definition round_double (z : Z) : JsNum :=
  let a := Z.abs z in
  if Z.ltb a (2 ^ 53) then Int z
  else
    let e := (Z.log2 a - 52)%Z in
    let q := (a / 2 ^ e)%Z in
    let r := (a mod 2 ^ e)%Z in
    let half := (2 ^ (e - 1))%Z in
    let m := if Z.ltb half r || (Z.eqb r half && Z.odd q) then (q + 1)%Z else q in
    let v := (m * 2 ^ e)%Z in
    if Z.leb (2 ^ 1024) v then Inf (Z.ltb z 0) else Int (Z.sgn z * v).

Definition js_mul (a b : JsNum) : JsNum :=
  match a, b with
  | Int x, Int y => round_double (x * y)
  | Inf n, Int y | Int y, Inf n =>
      if Z.eqb y 0 then NaN else Inf (xorb n (Z.ltb y 0))
  | Inf n, Inf m => Inf (xorb n m)
  | _, _ => NaN
  end.

Definition js_sub (a b : JsNum) : JsNum :=
  match a, b with
  | Int x, Int y => round_double (x - y)
  | Inf n, Int _ => Inf n
  | Int _, Inf n => Inf (negb n)
  | Inf n, Inf m => if Bool.eqb n m then NaN else Inf n
  | _, _ => NaN
  end.

(** [a < b]: false as soon as one side is [NaN]. *)
Definition js_lt (a b : JsNum) : bool :=
  match a, b with
  | Int x, Int y => Z.ltb x y
  | Inf n, Int _ => n
  | Int _, Inf n => negb n
  | Inf n, Inf m => n && negb m
  | _, _ => false
  end.

(** The double nearest to the quotient [a / d] of two positive integers, as
    a mantissa [m] of 53 bits and a scale [k]: the double is [m / 2^k]. *)
Definition quotient_double (a d : Z) : Z * Z :=
  let flog := if Z.leb d a then Z.log2 (a / d)
              else (- Z.log2_up ((d + a - 1) / a))%Z in
  let k := (52 - flog)%Z in
  let num := if Z.leb 0 k then (a * 2 ^ k)%Z else a in
  let den := if Z.leb 0 k then d else (d * 2 ^ (- k))%Z in
  let m0 := (num / den)%Z in
  let r := (num mod den)%Z in
  let m := if Z.ltb den (2 * r) || (Z.eqb (2 * r) den && Z.odd m0)
           then (m0 + 1)%Z else m0 in
  (m, k).

Definition floor_double (mk : Z * Z) : Z :=
  let '(m, k) := mk in
  if Z.leb 0 k then (m / 2 ^ k)%Z else (m * 2 ^ (- k))%Z.

Definition ceil_double (mk : Z * Z) : Z :=
  let '(m, k) := mk in
  if Z.leb 0 k then (- ((- m) / 2 ^ k))%Z else (m * 2 ^ (- k))%Z.

(** [Math.floor(a / d)] for a positive integer [d]: the quotient is rounded
    to a double, then floored. *)
Definition Math_floor_div (a : JsNum) (d : Z) : JsNum :=
  match a with
  | NaN => NaN
  | Inf n => Inf n
  | Int x =>
      if Z.eqb x 0 then Int 0
      else if Z.ltb 0 x then Int (floor_double (quotient_double x d))
      else Int (- ceil_double (quotient_double (- x) d))
  end.

(** *** Number to string *)

Definition decimal (z : Z) : string :=
  NilZero.string_of_int (Z.to_int z).

Definition digits10 (z : Z) : Z :=
  Z.of_nat (String.length (decimal z)).

(** The digits JavaScript prints for a double [z] from 2^53 on are the
    fewest that denote a number whose nearest double is [z]; of two such
    numbers with [k] digits, the nearer to [z].  [shortest_from] tries the
    two multiples of [10^(n0 - k)] around [z], for [k = 1, 2, ...], and
    answers the number denoted. *)
Fixpoint shortest_from (ks : list Z) (n0 z : Z) : Z :=
  match ks with
  | [] => z
  | k :: rest =>
      let p := (10 ^ (n0 - k))%Z in
      let lo := (z / p * p)%Z in
      let hi := (lo + p)%Z in
      let lo_ok := match round_double lo with Int v => Z.eqb v z | _ => false end in
      let hi_ok := match round_double hi with Int v => Z.eqb v z | _ => false end in
      if lo_ok && hi_ok then
        (if Z.ltb (z - lo) (hi - z) || (Z.eqb (z - lo) (hi - z) && Z.even (lo / p))
         then lo else hi)
      else if lo_ok then lo
      else if hi_ok then hi
      else shortest_from rest n0 z
  end.

Definition shortest (z : Z) : Z :=
  shortest_from [1; 2; 3; 4; 5; 6; 7; 8; 9; 10; 11; 12; 13; 14; 15; 16; 17]%Z
                (digits10 z) z.

Fixpoint drop_leading_zeros (s : list ascii) : list ascii :=
  match s with
  | "0"%char :: rest => drop_leading_zeros rest
  | _ => s
  end.

Definition strip_trailing_zeros (s : string) : string :=
  string_of_list_ascii (rev (drop_leading_zeros (rev (list_ascii_of_string s)))).

(** [d.ddd e+n], the notation from 1e21 on. *)
Definition exponent_form (v : Z) : string :=
  match decimal v with
  | EmptyString => EmptyString
  | String d rest =>
      let frac := strip_trailing_zeros rest in
      String d (match frac with
                | EmptyString => EmptyString
                | String _ _ => "." +:+ frac
                end)
      +:+ "e+" +:+ decimal (digits10 v - 1)
  end.

Definition print_positive (z : Z) : string :=
  if Z.ltb z (2 ^ 53) then decimal z
  else
    let v := shortest z in
    if Z.ltb v (10 ^ 21) then decimal v else exponent_form v.

Definition NumberToString (n : JsNum) : string :=
  match n with
  | NaN => "NaN"
  | Inf false => "Infinity"
  | Inf true => "-Infinity"
  | Int z => if Z.ltb z 0 then "-" +:+ print_positive (- z) else print_positive z
  end.

(** ** Conversions *)

(** ToString.  An array prints its elements separated by commas, [null] and
    [undefined] elements as the empty string; a plain object prints as
    [[object Object]]. *)
Fixpoint ToString (v : JsVal) : string :=
  match v with
  | JUndefined => "undefined"
  | JNull => "null"
  | JBool true => "true"
  | JBool false => "false"
  | JNum n => NumberToString n
  | JStr s => s
  | JArr items =>
      (fix join (l : list JsVal) : string :=
         match l with
         | [] => ""
         | x :: rest =>
             let e := match x with
                      | JUndefined | JNull => ""
                      | _ => ToString x
                      end in
             match rest with
             | [] => e
             | _ :: _ => e +:+ "," +:+ join rest
             end
         end) items
  | JObj _ => "[object Object]"
  end.

Section WithRuntime.
Context `{RT : Runtime}.

(** ToNumber.  An object is first converted to a string. *)
Definition ToNumber (v : JsVal) : JsNum :=
  match v with
  | JUndefined => NaN
  | JNull => Int 0
  | JBool true => Int 1
  | JBool false => Int 0
  | JNum n => n
  | JStr s => StringToNumber s
  | JArr _ | JObj _ => StringToNumber (ToString v)
  end.

End WithRuntime.

(** Reading the property [k] of a value that passed the object test.  Only
    the own properties of a parsed object are modelled; the three names the
    script reads are neither array indices nor members of a prototype. *)
Fixpoint assoc (k : string) (fields : list (string * JsVal)) : JsVal :=
  match fields with
  | [] => JUndefined
  | (k', v) :: rest => if String.eqb k k' then v else assoc k rest
  end.

Definition get_prop (o : JsVal) (k : string) : JsVal :=
  match o with
  | JObj fields => assoc k fields
  | _ => JUndefined
  end.

Definition has_own (k : string) (fields : list (string * JsVal)) : bool :=
  existsb (fun kv => String.eqb k (fst kv)) fields.

(** What [o[k]] answers on an object literal [o] of the script for any
    name [k]: the own field, or else the member of that name the object
    inherits from [Object.prototype] (a function; the prototype itself for
    [__proto__]), or else [undefined]. *)
Inductive Property : Type :=
  | Own (v : JsVal)
  | Inherited (member : string).

Coercion Own : JsVal >-> Property.

Definition Object_prototype : list string :=
  [ "constructor"; "toString"; "toLocaleString"; "valueOf"; "hasOwnProperty";
    "isPrototypeOf"; "propertyIsEnumerable"; "__defineGetter__";
    "__defineSetter__"; "__lookupGetter__"; "__lookupSetter__"; "__proto__" ].

Definition member (k : string) (o : list (string * JsVal)) : Property :=
  if has_own k o then Own (assoc k o)
  else if existsb (String.eqb k) Object_prototype then Inherited k
  else Own JUndefined.

(** ** Strings *)

(** [toLowerCase] on one code unit.  Only [A]..[Z] change; the script
    compares lowered strings with ASCII words only, and no code unit outside
    ASCII lowers (or, for a case-insensitive regular expression, folds) to
    an ASCII one. *)
Definition lower_char (c : ascii) : ascii :=
  let n := N_of_ascii c in
  if ((65 <=? n) && (n <=? 90))%N then ascii_of_N (n + 32) else c.

Fixpoint toLowerCase (s : string) : string :=
  match s with
  | EmptyString => EmptyString
  | String c rest => String (lower_char c) (toLowerCase rest)
  end.

(** Does [s] start with [p], up to letter case? *)
Fixpoint prefix_ci (p s : string) : bool :=
  match p, s with
  | EmptyString, _ => true
  | String a p', String b s' =>
      Ascii.eqb (lower_char a) (lower_char b) && prefix_ci p' s'
  | String _ _, EmptyString => false
  end.

(** [s.match(/p/i) !== null] for a pattern [p] of plain letters. *)
Fixpoint search_ci (p s : string) : bool :=
  prefix_ci p s ||
  match s with
  | EmptyString => false
  | String _ s' => search_ci p s'
  end.

(** [s.replace(/ /g, '')]: every space character is dropped. *)
Fixpoint remove_spaces (s : string) : string :=
  match s with
  | EmptyString => EmptyString
  | String c rest =>
      if Ascii.eqb c " " then remove_spaces rest
      else String c (remove_spaces rest)
  end.

(** [s.split(sep)] for a one-character separator: never empty. *)
Fixpoint split (sep : ascii) (s : string) : list string :=
  match s with
  | EmptyString => [EmptyString]
  | String c rest =>
      if Ascii.eqb c sep then EmptyString :: split sep rest
      else match split sep rest with
           | [] => [String c EmptyString]
           | h :: t => String c h :: t
           end
  end.

(** [l.join(sep)]. *)
Fixpoint join (sep : string) (l : list string) : string :=
  match l with
  | [] => ""
  | [x] => x
  | x :: rest => x +:+ sep +:+ join sep rest
  end.

(** ** [util.format]

    As in the Node releases the script was written for: the format string is
    scanned for [%s], [%d], [%j] and [%%]; a placeholder met after the
    arguments ran out stays as it is; arguments left over are appended, each
    after a space. *)

Section Format.
Context `{RT : Runtime}.

Fixpoint format_core (f : string) (args : list JsVal) : string * list JsVal :=
  match f with
  | EmptyString => (EmptyString, args)
  | String c f' =>
      let copy := let '(out, unused) := format_core f' args in
                  (String c out, unused) in
      if Ascii.eqb c "%" then
        match f' with
        | EmptyString => copy
        | String d rest =>
            if Ascii.eqb d "%" then
              let '(out, unused) := format_core rest args in
              (String "%" out, unused)
            else if Ascii.eqb d "s" || Ascii.eqb d "d" || Ascii.eqb d "j" then
              match args with
              | [] => copy
              | a :: args' =>
                  let piece :=
                    if Ascii.eqb d "s" then ToString a
                    else if Ascii.eqb d "d" then NumberToString (ToNumber a)
                    else JSON_stringify a in
                  let '(out, unused) := format_core rest args' in
                  (piece +:+ out, unused)
              end
            else copy
        end
      else copy
  end.

(** The arguments no placeholder consumed: [' ' + x] for a primitive,
    [' ' + inspect(x)] for an object. *)
Definition format_extra (x : JsVal) : string :=
  " " +:+ (if bool_decide (typeof x = TObject) && negb (is_null x)
           then util_inspect x else ToString x).

Definition util_format (f : string) (args : list JsVal) : string :=
  let '(out, unused) := format_core f args in
  out +:+ join "" (map format_extra unused).

End Format.

(** ** The Hubot brain

    [robot.brain] keeps a plain object of private data; [get] answers [null]
    for a key that is absent or holds [null] or [undefined], and [remove]
    deletes a key that holds something else. *)

Abbreviation Brain := (gmap string JsVal).

Definition brain_lookup (b : Brain) (key : string) : JsVal :=
  match b !! key with
  | Some v => if is_nullish v then JNull else v
  | None => JNull
  end.

Definition brain_insert (b : Brain) (key : string) (v : JsVal) : Brain :=
  <[key := v]> b.

Definition brain_delete (b : Brain) (key : string) : Brain :=
  match b !! key with
  | Some v => if is_nullish v then b else delete key b
  | None => b
  end.

(** ** The handler monad *)

Inductive Exn : Type :=
  | TypeError.

(** What a handler does to the outside, in the order it does it. *)
Inductive Effect : Type :=
  | BrainGet (key : string)
  | BrainSet (key : string) (value : JsVal)
  | BrainRemove (key : string)
  | AllowAccessToIp (DBSecurityGroupName : Property) (CIDRIP : string) (ttl : JsNum)
  | ResSend (status : Z)
  | ResRender (view : string) (locals : list (string * string))
  | MsgSend (text : string)
  | MsgReply (texts : list JsVal)
  | RobotSend (room : string) (text : string)
  | HttpGet (url : string) (vault_token : string).

Record World : Type := {
  brain : Brain;
  trace : list Effect
}.

Inductive Completion (A : Type) : Type :=
  | Normal (a : A)
  | Throw (e : Exn).
Arguments Normal {A} a.
Arguments Throw {A} e.

Definition Js (A : Type) : Type := World -> Completion A * World.

Definition ret {A} (a : A) : Js A := fun w => (Normal a, w).

Definition bind {A B} (m : Js A) (k : A -> Js B) : Js B :=
  fun w =>
    match m w with
    | (Normal a, w') => k a w'
    | (Throw e, w') => (Throw e, w')
    end.

Definition throw {A} (e : Exn) : Js A := fun w => (Throw e, w).

Definition emit (e : Effect) : Js unit :=
  fun w => (Normal tt, {| brain := brain w; trace := (trace w ++ [e])%list |}).

Notation "'do' x <- m ; k" := (bind m (fun x => k))
  (at level 10, x name, m at level 100, k at level 200).
Notation "m ;; k" := (bind m (fun _ => k))
  (at level 100, k at level 200, right associativity).

(** [if (c) { m }] *)
Definition when (c : bool) (m : Js unit) : Js unit :=
  if c then m else ret tt.

Definition robot_brain_get (key : string) : Js JsVal :=
  fun w =>
    (Normal (brain_lookup (brain w) key),
     {| brain := brain w; trace := (trace w ++ [BrainGet key])%list |}).

Definition robot_brain_set (key : string) (v : JsVal) : Js unit :=
  fun w =>
    (Normal tt,
     {| brain := brain_insert (brain w) key v;
        trace := (trace w ++ [BrainSet key v])%list |}).

Definition robot_brain_remove (key : string) : Js unit :=
  fun w =>
    (Normal tt,
     {| brain := brain_delete (brain w) key;
        trace := (trace w ++ [BrainRemove key])%list |}).

(** A handler started on brain [b] with an empty trace. *)
Definition run {A} (m : Js A) (b : Brain) : Completion A * World :=
  m {| brain := b; trace := [] |}.

Definition completion {A} (r : Completion A * World) : Completion A := fst r.
Definition brain_after {A} (r : Completion A * World) : Brain := brain (snd r).
Definition effects {A} (r : Completion A * World) : list Effect := trace (snd r).

(** The line feed of the script's ['\n']. *)
Definition LF : string := String "010"%char EmptyString.

(** Lines 24-27.  The route reads it with [member]: a name that is not one
    of the two answers what an object literal inherits, or [undefined]. *)
Definition SecGroupForVaultPath : list (string * JsVal) :=
  [ ("db_production", JStr "db-uwhisp-production");
    ("db_test", JStr "db-uwhisp-test") ].

(** ** The confirmation route  [GET /heimdall/access/:nonce] *)

(** What the route reads of the request: [req.headers] (Node lower-cases
    the names), [req.params.nonce] and [req.connection.remoteAddress],
    which is [undefined] once the socket is gone. *)
Record Request : Type := {
  headers : gmap string string;
  params_nonce : string;
  connection_remoteAddress : option string
}.

(** One visit: the request, the clock [new Date().getTime()] reads, and the
    error [heimdall.allowAccessToIp] passes to its callback (falsy when the
    address was authorized). *)
Record Visit : Type := {
  req : Request;
  now : Z;
  acl_err : JsVal
}.

Definition matches_Slackbot (user_agent : string) : bool :=
  search_ci "Slackbot" user_agent.

(** Lines 59-68: the address of the client, in CIDR notation. *)
Definition client_ip (r : Request) : string :=
  let ip :=
    match headers r !! "x-real-ip" with
    | Some real => JStr (remove_spaces real)
    | None =>
        match headers r !! "x-forwarded-for" with
        | Some chain => JStr (remove_spaces (hd EmptyString (split "," chain)))
        | None =>
            match connection_remoteAddress r with
            | Some peer => JStr peer
            | None => JUndefined
            end
        end
    end in
  ToString ip +:+ "/32".

Section Handlers.
Context `{RT : Runtime}.

(** Lines 51 and 218: the key of a nonce in the brain. *)
Definition brain_key_of (nonce : string) : string :=
  util_format "heimdall_access_%s" [JStr nonce].

(** Line 71. *)
Definition compute_ttl (access_request : JsVal) (now : Z) : JsNum :=
  js_sub (js_mul (ToNumber (get_prop access_request "lease_duration")) (Int 1000))
         (js_sub (Int now) (ToNumber (get_prop access_request "requested"))).

(** Lines 44-91.  A missing [user-agent] header makes line 46 call [match]
    on [undefined].  The callback of [allowAccessToIp] renders its page once
    the call answers; its effect is recorded with the call. *)
Definition access_handler (v : Visit) : Js unit :=
  match headers (req v) !! "user-agent" with
  | None => throw TypeError
  | Some user_agent =>
      if matches_Slackbot user_agent then emit (ResSend 200)
      else
        let brain_key := brain_key_of (params_nonce (req v)) in
        do access_request <- robot_brain_get brain_key;
        if bool_decide (typeof access_request <> TObject) || is_null access_request
        then emit (ResRender "not_found" [])
        else
          let ip := client_ip (req v) in
          let ttl := compute_ttl access_request (now v) in
          (if js_lt ttl (Int 0) then emit (ResRender "not_found" [])
           else
             emit (AllowAccessToIp
                     (member (ToString (get_prop access_request "vault_path"))
                             SecGroupForVaultPath)
                     ip ttl);;
             if truthy (acl_err v)
             then emit (ResRender "error" [("error", util_inspect (acl_err v))])
             else emit (ResRender "ip_success"
                          [("ip", ip);
                           ("ttl", util_format "%d minutes"
                                     [JNum (Math_floor_div ttl 60000)])]));;
          robot_brain_remove brain_key
  end.

End Handlers.

(** ** The chat command  [give me <level> access to <env> database] *)

(** The strings read from [CONFIG] (the configuration files are not part of
    the script). *)
Record Config : Type := {
  Strings_sorry_dave : string;
  Urls_vault_base_url : string;
  Urls_base_url : string
}.

Record UserCreds : Type := {
  vault_token : option string
}.

(** [msg.envelope.user] *)
Record User : Type := {
  name : string;
  id : string;
  Creds : option UserCreds
}.

(** [msg]: the envelope and the groups [msg.match[1]], [msg.match[2]] of the
    command's regular expression (both [\w+]). *)
Record Message : Type := {
  envelope_user : User;
  envelope_room : option string;
  match_1 : string;
  match_2 : string
}.

(** What Vault's HTTP client passes to the callback: [err], [res] (here its
    [statusCode]) and [body]. *)
Record VaultReply : Type := {
  err : JsVal;
  res_statusCode : option Z;
  body : option string
}.

(** One command: the message, Vault's reply, the clock, the digest
    [sha256(uuid.v4())] in hexadecimal, and the room
    [robot.brain.userForId(id).room]. *)
Record Command : Type := {
  msg : Message;
  reply : VaultReply;
  issued_at : Z;
  digest : string;
  user_room : option string
}.

(** The [switch] of lines 105-123; [None] is its [default]. *)
Definition level_of (token : string) : option string :=
  let t := toLowerCase token in
  if String.eqb t "read" || String.eqb t "ro" then Some "readonly"
  else if String.eqb t "write" || String.eqb t "rw" then Some "readwrite"
  else if String.eqb t "admin" then Some "admin"
  else None.

(** The [switch] of lines 127-141. *)
Definition vault_path_of (token : string) : option string :=
  let t := toLowerCase token in
  if String.eqb t "prod" || String.eqb t "production" then Some "db_production"
  else if String.eqb t "test" then Some "db_test"
  else None.

(** [key + ': ' + value], the credentials between stars. *)
Definition credential_line (k : string) (v : JsVal) : string :=
  if String.eqb k "username" || String.eqb k "password"
  then "*" +:+ k +:+ "*: " +:+ ToString v
  else k +:+ ": " +:+ ToString v.

Definition index_key (i : nat) : string :=
  NilZero.string_of_uint (Nat.to_uint i).

(** The recursive [parse] of lines 194-209: the lines it pushes, in order,
    or [None] when it throws.  [for .. in] enumerates the fields of an
    object, the indices of an array and the indices of a string;
    [typeof null] is ['object'], and the loop over [null] has no iteration.
    Line 196 calls [data.hasOwnProperty]: on an object with a field of that
    name it calls the field's value, which no parsed value can be, and the
    first iteration throws a [TypeError]. *)
Definition field_lines (k : string) (v : JsVal) (sub : option (list string))
  : option (list string) :=
  if bool_decide (typeof v = TObject) then sub else Some [credential_line k v].

(** The lines of two stretches of the loop, unless one of them threw. *)
Definition then_lines (a b : option (list string)) : option (list string) :=
  match a, b with
  | Some x, Some y => Some (x ++ y)%list
  | _, _ => None
  end.

Fixpoint parse (data : JsVal) : option (list string) :=
  match data with
  | JObj fields =>
      if has_own "hasOwnProperty" fields then None
      else
        (fix each (l : list (string * JsVal)) : option (list string) :=
           match l with
           | [] => Some []
           | (k, v) :: rest => then_lines (field_lines k v (parse v)) (each rest)
           end) fields
  | JArr items =>
      (fix each (i : nat) (l : list JsVal) : option (list string) :=
         match l with
         | [] => Some []
         | v :: rest =>
             then_lines (field_lines (index_key i) v (parse v)) (each (S i) rest)
         end) 0%nat items
  | JStr s =>
      Some ((fix each (i : nat) (l : string) : list string :=
         match l with
         | EmptyString => []
         | String c rest =>
             credential_line (index_key i) (JStr (String c EmptyString))
               :: each (S i) rest
         end) 0%nat s)
  | _ => Some []
  end.

Section Respond.
Context `{RT : Runtime}.
Variable CONFIG : Config.

Definition needs_token_text (m : Message) : string :=
  util_format
    (Strings_sorry_dave CONFIG +:+ LF +:+
     "I need your vault token in order to do this." +:+ LF +:+
     "You should ask your beloved sysadmin ;)")
    [JStr (name (envelope_user m))].

(** Lines 118-122.  [level] is the variable declared on line 104, still
    unassigned when the [default] case runs. *)
Definition unknown_level_text (m : Message) (level : JsVal) : string :=
  util_format
    (Strings_sorry_dave CONFIG +:+ LF +:+ "Unknown access level *%s*." +:+ LF +:+
     "Must be read, ro, write, rw or admin")
    [JStr (name (envelope_user m)); level].

(** Lines 136-140. *)
Definition unknown_environment_text (m : Message) : string :=
  util_format
    (Strings_sorry_dave CONFIG +:+ LF +:+ "Unknown environment *%s*." +:+ LF +:+
     "Must be production, prod or test")
    [JStr (name (envelope_user m)); JStr (match_2 m)].

Definition not_authorized_text (m : Message) (level vault_path : string) : string :=
  util_format
    (Strings_sorry_dave CONFIG +:+ LF +:+
     "You're not authorized to request *%s* access to *%s* database")
    [JStr (name (envelope_user m)); JStr level; JStr vault_path].

Definition sealed_text (m : Message) : string :=
  util_format
    (Strings_sorry_dave CONFIG +:+ LF +:+
     "Vault is sealed and cannot retreave any data from it")
    [JStr (name (envelope_user m))].

Definition body_value (b : option string) : JsVal :=
  match b with
  | Some s => JStr s
  | None => JUndefined
  end.

(** Lines 156-162. *)
Definition unknownError (r : VaultReply) : Js unit :=
  emit (MsgReply [JStr "An error occurred talking to vault, please try again in a few moments"]);;
  when (match res_statusCode r with
        | Some code => truthy (JNum (Int code))
        | None => false
        end)
       (emit (MsgReply [JStr ("Status code: " +:+
                              match res_statusCode r with
                              | Some code => NumberToString (Int code)
                              | None => ""
                              end)]));;
  when (truthy (err r))
       (emit (MsgReply [JStr ("Error: " +:+ ToString (err r))]));;
  when (truthy (body_value (body r)))
       (emit (MsgReply [JStr ("Body: " +:+ ToString (body_value (body r)))])).

(** Lines 154-233: the callback of the request to Vault. *)
Definition vault_callback (c : Command) (level vault_path : string) : Js unit :=
  let m := msg c in
  let r := reply c in
  if truthy (err r) then unknownError r
  else
    match res_statusCode r with
    | None => throw TypeError
    | Some statusCode =>
        if Z.eqb statusCode 401 || Z.eqb statusCode 400 || Z.eqb statusCode 404
        then emit (MsgSend (not_authorized_text m level vault_path))
        else if Z.eqb statusCode 503
        then emit (MsgSend (sealed_text m))
        else if Z.ltb 299 statusCode
        then unknownError r
        else
          match JSON_parse (ToString (body_value (body r))) with
          | None =>
              emit (MsgReply [JStr "An error occurred parsing the vault response";
                              body_value (body r)])
          | Some parsedBody =>
              do lines <-
                match parse parsedBody with
                | Some lines => ret lines
                | None => throw TypeError
                end;
              let response := "Here ya go:" :: lines in
              emit (RobotSend (name (envelope_user m)) (join LF response));;
              let nonce := digest c in
              let brain_key := util_format "heimdall_access_%s" [JStr nonce] in
              do lease_duration <-
                (if is_nullish parsedBody then throw TypeError
                 else ret (get_prop parsedBody "lease_duration"));
              robot_brain_set brain_key
                (JObj [("vault_path", JStr vault_path);
                       ("requested", JNum (Int (issued_at c)));
                       ("lease_duration", lease_duration)]);;
              emit (RobotSend (name (envelope_user m))
                      ("Direct your browser here to enable access to DB from your current IP address"
                       +:+ LF +:+ Urls_base_url CONFIG +:+ "heimdall/access/" +:+ nonce));;
              when (bool_decide (envelope_room m <> user_room c))
                   (emit (MsgReply [JStr "I've sent the access credentials in a private chat"]))
          end
    end.

(** Lines 93-152: the command, up to the request to Vault, whose callback
    runs with Vault's reply. *)
Definition respond_handler (c : Command) : Js unit :=
  let m := msg c in
  match Creds (envelope_user m) with
  | None => emit (MsgSend (needs_token_text m))
  | Some creds =>
      match vault_token creds with
      | None => emit (MsgSend (needs_token_text m))
      | Some token =>
          match level_of (match_1 m) with
          | None => emit (MsgSend (unknown_level_text m JUndefined))
          | Some level =>
              match vault_path_of (match_2 m) with
              | None => emit (MsgSend (unknown_environment_text m))
              | Some vault_path =>
                  let url := util_format "%s/v1/%s/creds/%s"
                               [JStr (Urls_vault_base_url CONFIG);
                                JStr vault_path; JStr level] in
                  emit (HttpGet url token);;
                  vault_callback c level vault_path
              end
          end
      end
  end.

End Respond.

(** ** The system as a sequence of handler runs *)

(** One run of either handler.  The brain a run leaves (also when it
    throws) is the brain the next run starts from. *)
Inductive Event : Type :=
  | Confirmation (v : Visit)
  | Request_access (c : Command).

Section System.
Context `{RT : Runtime}.
Variable CONFIG : Config.

Definition handle (e : Event) : Js unit :=
  match e with
  | Confirmation v => access_handler v
  | Request_access c => respond_handler CONFIG c
  end.

Definition step (b : Brain) (e : Event) : Brain :=
  brain_after (run (handle e) b).

Definition steps (b : Brain) (es : list Event) : Brain :=
  fold_left step es b.

End System.

(** ** Vocabulary of the properties *)

(** The value passes the test of line 54: an object and not [null]. *)
Definition object_shaped (v : JsVal) : bool :=
  bool_decide (typeof v = TObject) && negb (is_null v).

(** The request carries a user agent that is not Slack's link expander. *)
Definition from_browser (r : Request) : bool :=
  match headers r !! "user-agent" with
  | Some user_agent => negb (matches_Slackbot user_agent)
  | None => false
  end.

Definition is_page (e : Effect) : bool :=
  match e with
  | ResRender _ _ => true
  | _ => false
  end.

(** The run rendered one of the route's pages: it reached one of the
    outcomes Granted ([ip_success]), Failed ([error]), Expired or NotFound
    (both [not_found]). *)
Definition rendered {A} (r : Completion A * World) : bool :=
  existsb is_page (effects r).

Definition is_acl_call (e : Effect) : bool :=
  match e with
  | AllowAccessToIp _ _ _ => true
  | _ => false
  end.

Definition touches_brain (e : Effect) : bool :=
  match e with
  | BrainGet _ | BrainSet _ _ | BrainRemove _ => true
  | _ => false
  end.

Section Resolve.
Context `{RT : Runtime}.

(** What a visit does once a record was found: lines 59-87. *)
Definition resolve (access_request : JsVal) (v : Visit) : list Effect :=
  let ip := client_ip (req v) in
  let ttl := compute_ttl access_request (now v) in
  if js_lt ttl (Int 0) then [ResRender "not_found" []]
  else
    [AllowAccessToIp
       (member (ToString (get_prop access_request "vault_path")) SecGroupForVaultPath)
       ip ttl;
     if truthy (acl_err v)
     then ResRender "error" [("error", util_inspect (acl_err v))]
     else ResRender "ip_success"
            [("ip", ip);
             ("ttl", util_format "%d minutes" [JNum (Math_floor_div ttl 60000)])]].

End Resolve.

(** The record line 218 stores. *)
Definition lease_record (vault_path : string) (requested : Z) (lease_duration : JsVal) : JsVal :=
  JObj [("vault_path", JStr vault_path);
        ("requested", JNum (Int requested));
        ("lease_duration", lease_duration)].

(** The failures of a request to Vault, named as the error taxonomy names
    them, by the test of lines 164-181 that catches the reply. *)
Inductive Failure : Type :=
  | BackendUnreachable
  | Unauthorized
  | BackendUnavailable
  | UnknownBackendError.

Definition failure_of (r : VaultReply) : option Failure :=
  if truthy (err r) then Some BackendUnreachable
  else
    match res_statusCode r with
    | None => None
    | Some statusCode =>
        if Z.eqb statusCode 401 || Z.eqb statusCode 400 || Z.eqb statusCode 404
        then Some Unauthorized
        else if Z.eqb statusCode 503 then Some BackendUnavailable
        else if Z.ltb 299 statusCode then Some UnknownBackendError
        else None
    end.

(** The nonce [sha256(uuid.v4())] of a command differs from [nonce]. *)
Definition fresh_for (nonce : string) (e : Event) : bool :=
  match e with
  | Confirmation _ => true
  | Request_access c => negb (String.eqb (digest c) nonce)
  end.

(** The first entry of a comma-separated chain. *)
Definition first_hop (chain : string) : string :=
  hd EmptyString (split "," chain).

Fixpoint occurs (c : ascii) (s : string) : bool :=
  match s with
  | EmptyString => false
  | String x rest => Ascii.eqb x c || occurs c rest
  end.

(** Vault answered: no transport error, and a status code that none of
    the tests of lines 168-181 catches. *)
Definition successful (r : VaultReply) : bool :=
  negb (truthy (err r)) &&
  match res_statusCode r with
  | None => false
  | Some statusCode =>
      negb (Z.eqb statusCode 401 || Z.eqb statusCode 400 || Z.eqb statusCode 404) &&
      negb (Z.eqb statusCode 503) &&
      negb (Z.ltb 299 statusCode)
  end.

(** The link the command sends once the record is stored. *)
Definition confirmation_link (CONFIG : Config) (nonce : string) : string :=
  "Direct your browser here to enable access to DB from your current IP address"
  +:+ LF +:+ Urls_base_url CONFIG +:+ "heimdall/access/" +:+ nonce.

Definition accepted_levels : list string := ["read"; "ro"; "write"; "rw"; "admin"].
Definition accepted_environments : list string := ["prod"; "production"; "test"].

(** How many arguments a format string can consume: its [%s], [%d] and
    [%j], read as [util.format] reads them. *)
Fixpoint placeholders (f : string) : nat :=
  match f with
  | EmptyString => 0%nat
  | String c f' =>
      if Ascii.eqb c "%" then
        match f' with
        | EmptyString => 0%nat
        | String d rest =>
            if Ascii.eqb d "%" then placeholders rest
            else if Ascii.eqb d "s" || Ascii.eqb d "d" || Ascii.eqb d "j"
            then S (placeholders rest)
            else placeholders f'
        end
      else placeholders f'
  end.

Fixpoint last_char (s : string) : option ascii :=
  match s with
  | EmptyString => None
  | String c rest =>
      match last_char rest with
      | Some x => Some x
      | None => Some c
      end
  end.

Section Reports.
Context `{RT : Runtime}.

(** The replies of [unknownError], lines 157-161. *)
Definition unknownError_report (r : VaultReply) : list Effect :=
  [MsgReply [JStr "An error occurred talking to vault, please try again in a few moments"]]
  ++ match res_statusCode r with
     | Some code =>
         if truthy (JNum (Int code))
         then [MsgReply [JStr ("Status code: " +:+ NumberToString (Int code))]]
         else []
     | None => []
     end
  ++ (if truthy (err r)
      then [MsgReply [JStr ("Error: " +:+ ToString (err r))]] else [])
  ++ (if truthy (body_value (body r))
      then [MsgReply [JStr ("Body: " +:+ ToString (body_value (body r)))]] else []).

End Reports.

(** A computation that leaves the brain as it found it. *)
Definition preserves_brain {A} (m : Js A) : Prop :=
  forall w, brain (snd (m w)) = brain w.

(** A computation that changes the brain at most by one [set] of [key]. *)
Definition sets_at_most {A} (key : string) (m : Js A) : Prop :=
  forall w,
    brain (snd (m w)) = brain w \/
    exists x, brain (snd (m w)) = brain_insert (brain w) key x.

(** ** Worked inputs *)

(** The built-ins on the arguments the worked inputs pass to them:
    [JSON.parse] of the two bodies below, [util.inspect] of a string.  No
    worked input converts a string to a number or formats with [%j]. *)
Definition quote : string := String "034"%char EmptyString.

Definition body_without_lease : string := "{}".

Definition body_with_lease : string :=
  "{" +:+ quote +:+ "lease_duration" +:+ quote +:+ ":600}".

Definition example_runtime : Runtime := {|
  StringToNumber := fun _ => NaN;
  JSON_parse := fun s =>
    if String.eqb s body_without_lease then Some (JObj [])
    else if String.eqb s body_with_lease
    then Some (JObj [("lease_duration", JNum (Int 600))])
    else None;
  JSON_stringify := fun _ => EmptyString;
  util_inspect := fun v =>
    match v with
    | JStr s => "'" +:+ s +:+ "'"
    | _ => ToString v
    end
|}.

Definition example_config : Config := {|
  Strings_sorry_dave := "I'm sorry %s, I'm afraid I can't do that.";
  Urls_vault_base_url := "https://vault.example.org";
  Urls_base_url := "https://hubot.example.org/"
|}.

Definition browser_request (nonce : string) : Request := {|
  headers := {[ "user-agent" := "Mozilla/5.0";
                "x-forwarded-for" := "10.0.0.5, 192.168.1.1" ]};
  params_nonce := nonce;
  connection_remoteAddress := Some "127.0.0.1"
|}.

Definition slackbot_request (nonce : string) : Request := {|
  headers := {[ "user-agent" := "Slackbot-LinkExpanding 1.0 (+https://api.slack.com/robots)" ]};
  params_nonce := nonce;
  connection_remoteAddress := Some "127.0.0.1"
|}.

(** A request without any [User-Agent] header. *)
Definition bare_request (nonce : string) : Request := {|
  headers := ∅;
  params_nonce := nonce;
  connection_remoteAddress := Some "127.0.0.1"
|}.

Definition visit_at (r : Request) (t : Z) : Visit :=
  {| req := r; now := t; acl_err := JNull |}.

(** A brain holding one lease of 600 seconds issued at time 0. *)
Definition pending_brain : Brain :=
  {[ "heimdall_access_abc" := lease_record "db_test" 0 (JNum (Int 600)) ]}.


Definition dave : User := {|
  name := "dave";
  id := "U1";
  Creds := Some {| vault_token := Some "s.token" |}
|}.

Definition command (level env : string) (r : VaultReply) : Command := {|
  msg := {| envelope_user := dave; envelope_room := Some "ops";
            match_1 := level; match_2 := env |};
  reply := r;
  issued_at := 0;
  digest := "c0ffee";
  user_room := Some "ops"
|}.

Definition ok_reply (b : string) : VaultReply :=
  {| err := JNull; res_statusCode := Some 200; body := Some b |}.

(** The connection to Vault was refused. *)
Definition refused_reply : VaultReply :=
  {| err := JStr "Error: connect ECONNREFUSED"; res_statusCode := None; body := None |}.

Definition status_reply (statusCode : Z) (b : string) : VaultReply :=
  {| err := JNull; res_statusCode := Some statusCode; body := Some b |}.

(** ** Further vocabulary *)

Definition is_vault_call (e : Effect) : bool :=
  match e with
  | HttpGet _ _ => true
  | _ => false
  end.

(** An answer to the HTTP request of the route: [res.send] or
    [res.render]. *)
Definition is_response (e : Effect) : bool :=
  match e with
  | ResSend _ | ResRender _ _ => true
  | _ => false
  end.

(** What the callback of the request to Vault may do: talk in the chat and
    store a record. *)
Definition chat_or_store (e : Effect) : bool :=
  match e with
  | MsgSend _ | MsgReply _ | RobotSend _ _ | BrainSet _ _ => true
  | _ => false
  end.

(** Neither a call of the security group, nor an answer to an HTTP
    request, nor a [get] or [remove] on the brain. *)
Definition off_the_route (e : Effect) : bool :=
  negb (is_acl_call e) && negb (is_response e) &&
  match e with
  | BrainGet _ | BrainRemove _ => false
  | _ => true
  end.

(** A computation that only appends effects satisfying [P] to the trace. *)
Definition emits_only (P : Effect -> bool) {A} (m : Js A) : Prop :=
  forall w, exists t, trace (snd (m w)) = (trace w ++ t)%list /\ forallb P t = true.

(** A value [typeof] does not call an object. *)
Definition is_primitive (v : JsVal) : bool :=
  negb (bool_decide (typeof v = TObject)).


(** A user without credentials. *)
Definition stranger : User := {| name := "hal"; id := "U2"; Creds := None |}.

Definition stranger_command : Command := {|
  msg := {| envelope_user := stranger; envelope_room := Some "ops";
            match_1 := "bogus"; match_2 := "nowhere" |};
  reply := ok_reply body_with_lease;
  issued_at := 0;
  digest := "c0ffee";
  user_room := Some "ops"
|}.


(** The text [JSON.parse] is given. *)
Definition body_text (r : VaultReply) : string :=
  ToString (body_value (body r)).

(** The built-ins of [example_runtime], with [JSON.parse] of the body
    [null] added. *)
Definition example_runtime_null : Runtime := {|
  StringToNumber := @StringToNumber example_runtime;
  JSON_parse := fun s =>
    if String.eqb s "null" then Some JNull else @JSON_parse example_runtime s;
  JSON_stringify := @JSON_stringify example_runtime;
  util_inspect := @util_inspect example_runtime
|}.

(** [t] is [s] without its space characters (U+0020): every space of [s]
    is left out, and every other character, a tab included, is kept in its
    place. *)
Fixpoint without_spaces (s t : string) : bool :=
  match s with
  | EmptyString => String.eqb t EmptyString
  | String c s' =>
      if Ascii.eqb c " " then without_spaces s' t
      else
        match t with
        | String d t' => Ascii.eqb c d && without_spaces s' t'
        | EmptyString => false
        end
  end.

(** The letters, small and capital. *)
Definition alphabet : list (ascii * ascii) :=
  combine (list_ascii_of_string "abcdefghijklmnopqrstuvwxyz")
          (list_ascii_of_string "ABCDEFGHIJKLMNOPQRSTUVWXYZ").

(** The same character, or the same letter in the two cases. *)
Definition same_letter (a b : ascii) : bool :=
  Ascii.eqb a b ||
  existsb (fun p => (Ascii.eqb a (fst p) && Ascii.eqb b (snd p)) ||
                    (Ascii.eqb a (snd p) && Ascii.eqb b (fst p)))
          alphabet.

(** The same word, whatever the case of each letter. *)
Fixpoint spelled_alike (s t : string) : bool :=
  match s, t with
  | EmptyString, EmptyString => true
  | String a s', String b t' => same_letter a b && spelled_alike s' t'
  | _, _ => false
  end.

(** The horizontal tab. *)
Definition TAB : string := String "009"%char EmptyString.

(** A browser behind a proxy that leaves a space before the comma. *)
Definition spaced_request (nonce : string) : Request := {|
  headers := {[ "user-agent" := "Mozilla/5.0";
                "x-forwarded-for" := "10.0.0.5 , 192.168.1.1" ]};
  params_nonce := nonce;
  connection_remoteAddress := Some "127.0.0.1"
|}.

(** The same, with a tab where the space was. *)
Definition tabbed_request (nonce : string) : Request := {|
  headers := {[ "user-agent" := "Mozilla/5.0";
                "x-forwarded-for" := "10.0.0.5" +:+ TAB +:+ ", 192.168.1.1" ]};
  params_nonce := nonce;
  connection_remoteAddress := Some "127.0.0.1"
|}.

(** A body of Vault with a field named [hasOwnProperty]. *)
Definition body_with_hasOwnProperty : string :=
  "{" +:+ quote +:+ "hasOwnProperty" +:+ quote +:+ ":1}".

(** The built-ins of [example_runtime], with [JSON.parse] of that body
    added. *)
Definition example_runtime_shadowed : Runtime := {|
  StringToNumber := @StringToNumber example_runtime;
  JSON_parse := fun s =>
    if String.eqb s body_with_hasOwnProperty
    then Some (JObj [("hasOwnProperty", JNum (Int 1))])
    else @JSON_parse example_runtime s;
  JSON_stringify := @JSON_stringify example_runtime;
  util_inspect := @util_inspect example_runtime
|}.

(** * Properties *)

(** ** Strings *)

Lemma append_cons (c : ascii) (s t : string) :
  String c s +:+ t = String c (s +:+ t).
Proof. reflexivity. Qed.

Lemma append_empty_r (s : string) : s +:+ "" = s.
Proof.
  induction s as [|c s IH]; [reflexivity |].
  rewrite append_cons. now f_equal.
Qed.

Lemma append_assoc (a b c : string) : (a +:+ b) +:+ c = a +:+ (b +:+ c).
Proof.
  induction a as [|x a IH]; [reflexivity |].
  rewrite !append_cons. now f_equal.
Qed.

Lemma append_cancel_l (p a b : string) : p +:+ a = p +:+ b -> a = b.
Proof.
  induction p as [|x p IH]; intros H; [exact H |].
  rewrite !append_cons in H. injection H as H. now apply IH.
Qed.

(** ** Numbers *)










(** Beyond 2^53 the arithmetic of line 71 and the quotient of line 84 are
    rounded, and the largest numbers print with an exponent. *)
Example product_is_rounded :
  js_sub (js_mul (Int (2 ^ 53 - 1)) (Int 1000)) (js_sub (Int 1000) (Int 0))
  = Int 9007199254740989952.
Proof. vm_compute. reflexivity. Qed.

Example quotient_is_rounded :
  js_sub (js_mul (Int 9007199254800) (Int 1000)) (Int 1) = Int 9007199254800000 /\
  Math_floor_div (Int 9007199254800000) 60000 = Int 150119987580 /\
  (9007199254800 * 1000 - 1) / 60000 = 150119987579.
Proof. vm_compute. repeat split. Qed.

Example large_numbers_print :
  NumberToString (Int (2 ^ 53 - 1)) = "9007199254740991" /\
  NumberToString (Int (2 ^ 64)) = "18446744073709552000" /\
  NumberToString (js_mul (Int (10 ^ 15)) (Int (10 ^ 6))) = "1e+21" /\
  NumberToString (Int (2 ^ 70)) = "1.1805916207174113e+21" /\
  NumberToString (js_mul (Int (2 ^ 1000)) (Int (2 ^ 24))) = "Infinity".
Proof. vm_compute. repeat split. Qed.

(** ** The confirmation route *)

Section AccessProperties.
Context `{RT : Runtime}.

Lemma brain_key_of_eq (nonce : string) :
  brain_key_of nonce = "heimdall_access_" +:+ nonce.
Proof.
  unfold brain_key_of, util_format. cbn.
  now rewrite !append_empty_r.
Qed.

Lemma brain_key_of_inj (n1 n2 : string) :
  brain_key_of n1 = brain_key_of n2 -> n1 = n2.
Proof.
  rewrite !brain_key_of_eq. apply append_cancel_l.
Qed.

(** The test of line 54 fails exactly on the object-shaped values. *)
Lemma object_test (v : JsVal) :
  bool_decide (typeof v <> TObject) || is_null v = negb (object_shaped v).
Proof. destruct v; reflexivity. Qed.

Lemma from_browser_inv (r : Request) :
  from_browser r = true ->
  exists user_agent,
    headers r !! "user-agent" = Some user_agent /\
    matches_Slackbot user_agent = false.
Proof.
  unfold from_browser. destruct (headers r !! "user-agent") as [ua|]; [| discriminate].
  intros H. exists ua. split; [reflexivity |].
  now destruct (matches_Slackbot ua).
Qed.

Lemma run_without_user_agent (v : Visit) (b : Brain) :
  headers (req v) !! "user-agent" = None ->
  run (access_handler v) b = (Throw TypeError, {| brain := b; trace := [] |}).
Proof. intros H. unfold run, access_handler. now rewrite H. Qed.

Lemma run_crawler (v : Visit) (b : Brain) (user_agent : string) :
  headers (req v) !! "user-agent" = Some user_agent ->
  matches_Slackbot user_agent = true ->
  run (access_handler v) b = (Normal tt, {| brain := b; trace := [ResSend 200] |}).
Proof. intros H Hm. unfold run, access_handler. now rewrite H, Hm. Qed.

Lemma run_not_found (v : Visit) (b : Brain) :
  from_browser (req v) = true ->
  object_shaped (brain_lookup b (brain_key_of (params_nonce (req v)))) = false ->
  run (access_handler v) b =
    (Normal tt,
     {| brain := b;
        trace := [BrainGet (brain_key_of (params_nonce (req v)));
                  ResRender "not_found" []] |}).
Proof.
  intros (ua & H & Hm)%from_browser_inv Hno.
  unfold run, access_handler. rewrite H, Hm.
  unfold bind, robot_brain_get. cbn [brain trace].
  now rewrite object_test, Hno.
Qed.

Lemma run_found (v : Visit) (b : Brain) :
  from_browser (req v) = true ->
  object_shaped (brain_lookup b (brain_key_of (params_nonce (req v)))) = true ->
  run (access_handler v) b =
    (Normal tt,
     {| brain := brain_delete b (brain_key_of (params_nonce (req v)));
        trace := BrainGet (brain_key_of (params_nonce (req v)))
                   :: resolve (brain_lookup b (brain_key_of (params_nonce (req v)))) v
                   ++ [BrainRemove (brain_key_of (params_nonce (req v)))] |}).
Proof.
  intros (ua & H & Hm)%from_browser_inv Hobj.
  unfold run, access_handler. rewrite H, Hm.
  unfold bind at 1. unfold robot_brain_get at 1. cbn [brain trace].
  rewrite object_test, Hobj. unfold resolve. cbn [negb].
  destruct (js_lt _ _); [reflexivity |].
  destruct (truthy (acl_err v)); reflexivity.
Qed.




Lemma brain_lookup_deleted (b : Brain) (key : string) :
  brain_lookup (brain_delete b key) key = JNull.
Proof.
  unfold brain_lookup, brain_delete.
  destruct (b !! key) as [x|] eqn:E; [| now rewrite E].
  destruct (is_nullish x) eqn:N; [now rewrite E, N |].
  now rewrite lookup_delete_eq.
Qed.

Lemma brain_lookup_delete_other (b : Brain) (key key' : string) :
  key <> key' -> brain_lookup (brain_delete b key) key' = brain_lookup b key'.
Proof.
  intros Hne. unfold brain_lookup, brain_delete.
  destruct (b !! key) as [x|]; [| reflexivity].
  destruct (is_nullish x); [reflexivity |].
  now rewrite lookup_delete_ne.
Qed.

Lemma brain_lookup_insert_other (b : Brain) (key key' : string) (x : JsVal) :
  key <> key' -> brain_lookup (brain_insert b key x) key' = brain_lookup b key'.
Proof.
  intros Hne. unfold brain_lookup, brain_insert. now rewrite lookup_insert_ne.
Qed.

End AccessProperties.

(** ** The crawler short-circuit *)

Section Crawler.
Context `{RT : Runtime}.

(** C6.  A confirmation request whose user-agent header matches the crawler
    pattern [/Slackbot/i] is answered with a bare 200 and nothing else: the
    brain is neither read nor changed (no [get], no [remove]) and the
    security group is never called. *)
Theorem crawler_short_circuit (v : Visit) (b : Brain) (user_agent : string) :
  headers (req v) !! "user-agent" = Some user_agent ->
  matches_Slackbot user_agent = true ->
  completion (run (access_handler v) b) = Normal tt /\
  effects (run (access_handler v) b) = [ResSend 200] /\
  brain_after (run (access_handler v) b) = b /\
  forallb (fun e => negb (touches_brain e) && negb (is_acl_call e))
          (effects (run (access_handler v) b)) = true.
Proof.
  intros H Hm. rewrite (run_crawler v b user_agent H Hm).
  repeat split.
Qed.

End Crawler.

Lemma crawler_short_circuit_witness :
  let v := visit_at (slackbot_request "abc") 1000 in
  effects (run (@access_handler example_runtime v) pending_brain) = [ResSend 200] /\
  brain_after (run (@access_handler example_runtime v) pending_brain) = pending_brain.
Proof.
  pose proof (@crawler_short_circuit example_runtime
                (visit_at (slackbot_request "abc") 1000) pending_brain
                "Slackbot-LinkExpanding 1.0 (+https://api.slack.com/robots)"
                eq_refl eq_refl) as (_ & He & Hb & _).
  split; assumption.
Defined.

(** C10.  A request that carries no [User-Agent] header makes line 46 call
    [match] on [undefined]: the handler throws a [TypeError] before it
    answers anything. *)
Theorem missing_user_agent_throws :
  run (@access_handler example_runtime (visit_at (bare_request "abc") 1000)) pending_brain
  = (Throw TypeError, {| brain := pending_brain; trace := [] |}).
Proof. apply run_without_user_agent. reflexivity. Qed.

(** ** Single use of a found record *)

Section SingleUse.
Context `{RT : Runtime}.






End SingleUse.




(** Outside the range of C3 the [ttl] is the rounded one: a lease of
    2^53 - 1 seconds, visited after one second. *)
Example lease_beyond_the_exact_range :
  let b : Brain :=
    {[ "heimdall_access_abc" := lease_record "db_test" 0 (JNum (Int (2 ^ 53 - 1))) ]} in
  effects (run (@access_handler example_runtime (visit_at (browser_request "abc") 1000)) b) =
    [BrainGet "heimdall_access_abc";
     AllowAccessToIp (JStr "db-uwhisp-test") "10.0.0.5/32" (Int 9007199254740989952);
     ResRender "ip_success"
       [("ip", "10.0.0.5/32"); ("ttl", "150119987579016 minutes")];
     BrainRemove "heimdall_access_abc"].
Proof. vm_compute. reflexivity. Qed.

(** A record whose [vault_path] names a member every object inherits: the
    security group passed is that member, not a group of the table. *)
Example inherited_member_is_passed :
  let b : Brain :=
    {[ "heimdall_access_abc" := lease_record "constructor" 0 (JNum (Int 600)) ]} in
  effects (run (@access_handler example_runtime (visit_at (browser_request "abc") 1)) b) =
    [BrainGet "heimdall_access_abc";
     AllowAccessToIp (Inherited "constructor") "10.0.0.5/32" (Int 599999);
     ResRender "ip_success" [("ip", "10.0.0.5/32"); ("ttl", "9 minutes")];
     BrainRemove "heimdall_access_abc"].
Proof. vm_compute. reflexivity. Qed.


(** ** The address of the client *)

Lemma remove_spaces_clean (s : string) : occurs " " (remove_spaces s) = false.
Proof.
  induction s as [|c s IH]; [reflexivity |].
  cbn [remove_spaces]. destruct (Ascii.eqb c " ") eqn:E; [exact IH |].
  cbn [occurs]. now rewrite E.
Qed.

Lemma remove_spaces_none (s : string) :
  occurs " " s = false -> remove_spaces s = s.
Proof.
  induction s as [|c s IH]; [reflexivity |].
  cbn [occurs remove_spaces]. destruct (Ascii.eqb c " "); [discriminate |].
  cbn [orb]. intros H. now rewrite IH.
Qed.

(** [remove_spaces] takes out the spaces and nothing else. *)
Lemma remove_spaces_spec (s : string) : without_spaces s (remove_spaces s) = true.
Proof.
  induction s as [|c s IH]; [reflexivity |].
  cbn [remove_spaces without_spaces]. destruct (Ascii.eqb c " ") eqn:E; [exact IH |].
  now rewrite Ascii.eqb_refl, IH.
Qed.

Lemma without_spaces_unique (s t : string) :
  without_spaces s t = true -> t = remove_spaces s.
Proof.
  revert t. induction s as [|c s IH]; intros t; cbn [remove_spaces without_spaces].
  - now intros ->%String.eqb_eq.
  - destruct (Ascii.eqb c " "); [apply IH |].
    destruct t as [|d t]; [discriminate |].
    intros [->%Ascii.eqb_eq H]%andb_true_iff. f_equal. now apply IH.
Qed.

Lemma split_not_empty (sep : ascii) (s : string) : split sep s <> [].
Proof.
  induction s as [|c s IH]; cbn [split]; [discriminate |].
  destruct (Ascii.eqb c sep); [discriminate |].
  destruct (split sep s); [contradiction | discriminate].
Qed.

(** The first hop is the part of the chain before its first comma. *)
Lemma first_hop_spec (chain : string) :
  occurs "," (first_hop chain) = false /\
  (chain = first_hop chain \/
   exists rest, chain = first_hop chain +:+ String "," rest).
Proof.
  unfold first_hop. induction chain as [|c s IH]; [split; [reflexivity | now left] |].
  cbn [split]. destruct (Ascii.eqb c ",") eqn:E.
  - apply Ascii.eqb_eq in E. subst c. cbn [hd].
    split; [reflexivity |]. right. now exists s.
  - pose proof (split_not_empty "," s) as Hne.
    destruct (split "," s) as [|h t]; [contradiction |].
    cbn [hd] in *. destruct IH as [Hocc Hshape].
    split; [cbn [occurs]; now rewrite E |].
    destruct Hshape as [-> | [rest ->]]; [now left |].
    right. now exists rest.
Qed.

Section ClientIp.
Context `{RT : Runtime}.

Lemma run_cases (v : Visit) (b : Brain) :
  let key := brain_key_of (params_nonce (req v)) in
  run (access_handler v) b = (Throw TypeError, {| brain := b; trace := [] |}) \/
  run (access_handler v) b = (Normal tt, {| brain := b; trace := [ResSend 200] |}) \/
  (from_browser (req v) = true /\
   object_shaped (brain_lookup b key) = false /\
   run (access_handler v) b =
     (Normal tt, {| brain := b; trace := [BrainGet key; ResRender "not_found" []] |})) \/
  (from_browser (req v) = true /\
   object_shaped (brain_lookup b key) = true /\
   run (access_handler v) b =
     (Normal tt,
      {| brain := brain_delete b key;
         trace := BrainGet key :: resolve (brain_lookup b key) v ++ [BrainRemove key] |})).
Proof.
  intros key.
  destruct (headers (req v) !! "user-agent") as [ua|] eqn:H.
  - destruct (matches_Slackbot ua) eqn:Hm.
    + right. left. now apply run_crawler with ua.
    + assert (Hb : from_browser (req v) = true)
        by (unfold from_browser; now rewrite H, Hm).
      destruct (object_shaped (brain_lookup b key)) eqn:Ho.
      * right. right. right. repeat split; [assumption |]. now apply run_found.
      * right. right. left. repeat split; [assumption |]. now apply run_not_found.
  - left. now apply run_without_user_agent.
Qed.

(** C5, as the script has it.  The address handed to the security group
    is chosen by precedence: the [x-real-ip] header without its space
    characters when the header is there; otherwise the part of
    [x-forwarded-for] before its first comma, without its space characters,
    when that header is there; otherwise the peer address of the
    connection.  Only the space U+0020 is taken out: a tab stays.  In every
    case [/32] is appended, and whenever the handler calls the security
    group it passes this address. *)
Theorem client_ip_precedence (v : Visit) (b : Brain) :
  let r := req v in
  (forall real,
     headers r !! "x-real-ip" = Some real ->
     exists host,
       without_spaces real host = true /\
       client_ip r = host +:+ "/32") /\
  (forall chain,
     headers r !! "x-real-ip" = None ->
     headers r !! "x-forwarded-for" = Some chain ->
     exists hop host,
       occurs "," hop = false /\
       (chain = hop \/ exists rest, chain = hop +:+ String "," rest) /\
       without_spaces hop host = true /\
       client_ip r = host +:+ "/32") /\
  (headers r !! "x-real-ip" = None ->
   headers r !! "x-forwarded-for" = None ->
   client_ip r =
     match connection_remoteAddress r with
     | Some peer => peer
     | None => "undefined"
     end +:+ "/32") /\
  (exists host, client_ip r = host +:+ "/32") /\
  Forall (fun e => match e with
                   | AllowAccessToIp _ cidr _ => cidr = client_ip r
                   | _ => True
                   end)
         (effects (run (access_handler v) b)).
Proof.
  intros r. unfold client_ip. repeat split.
  - intros real ->. exists (remove_spaces real).
    split; [apply remove_spaces_spec | reflexivity].
  - intros chain -> ->. exists (first_hop chain), (remove_spaces (first_hop chain)).
    destruct (first_hop_spec chain) as [Hocc Hshape].
    split; [exact Hocc |]. split; [exact Hshape |].
    split; [apply remove_spaces_spec | reflexivity].
  - intros -> ->. now destruct (connection_remoteAddress r).
  - eexists. reflexivity.
  - destruct (run_cases v b) as [-> | [-> | [(_ & _ & ->) | (_ & _ & ->)]]];
      unfold effects; cbn [snd trace]; repeat constructor.
    apply Forall_app. split; [| repeat constructor].
    unfold resolve. destruct (js_lt _ _); [repeat constructor |].
    destruct (truthy (acl_err v)); repeat constructor.
Qed.

End ClientIp.

Lemma client_ip_precedence_witness :
  headers (spaced_request "abc") !! "x-real-ip" = None /\
  headers (spaced_request "abc") !! "x-forwarded-for" = Some "10.0.0.5 , 192.168.1.1" /\
  client_ip (spaced_request "abc") = "10.0.0.5/32" /\
  exists hop host,
    occurs "," hop = false /\
    ("10.0.0.5 , 192.168.1.1" = hop \/
     exists rest, "10.0.0.5 , 192.168.1.1" = hop +:+ String "," rest) /\
    without_spaces hop host = true /\
    client_ip (spaced_request "abc") = host +:+ "/32".
Proof.
  split; [reflexivity |]. split; [reflexivity |]. split; [reflexivity |].
  exact (proj1 (proj2
    (@client_ip_precedence example_runtime
       (visit_at (spaced_request "abc") 1000) pending_brain))
    "10.0.0.5 , 192.168.1.1" eq_refl eq_refl).
Defined.

(** C5, as stated, fails on whitespace other than the space: a tab in the
    first entry of [x-forwarded-for] is still there in the address the
    security group is called with. *)
Lemma tab_reaches_the_security_group :
  let r := run (@access_handler example_runtime (visit_at (tabbed_request "abc") 1000))
               pending_brain in
  headers (tabbed_request "abc") !! "x-real-ip" = None /\
  headers (tabbed_request "abc") !! "x-forwarded-for"
    = Some ("10.0.0.5" +:+ TAB +:+ ", 192.168.1.1") /\
  client_ip (tabbed_request "abc") = "10.0.0.5" +:+ TAB +:+ "/32" /\
  effects r =
    [BrainGet "heimdall_access_abc";
     AllowAccessToIp (JStr "db-uwhisp-test") ("10.0.0.5" +:+ TAB +:+ "/32") (Int 599000);
     ResRender "ip_success"
       [("ip", "10.0.0.5" +:+ TAB +:+ "/32"); ("ttl", "9 minutes")];
     BrainRemove "heimdall_access_abc"].
Proof. vm_compute. repeat split. Qed.

(** ** What the handlers do to the brain *)

Section BrainFootprint.
Context `{RT : Runtime}.

Lemma preserves_ret {A} (a : A) : preserves_brain (ret a).
Proof. intros w. reflexivity. Qed.

Lemma preserves_throw {A} (e : Exn) : preserves_brain (@throw A e).
Proof. intros w. reflexivity. Qed.

Lemma preserves_emit (e : Effect) : preserves_brain (emit e).
Proof. intros w. reflexivity. Qed.

Lemma preserves_bind {A B} (m : Js A) (k : A -> Js B) :
  preserves_brain m -> (forall a, preserves_brain (k a)) ->
  preserves_brain (bind m k).
Proof.
  intros Hm Hk w. unfold bind. specialize (Hm w).
  destruct (m w) as [[a|e] w']; cbn [snd] in *; [| exact Hm].
  now rewrite Hk.
Qed.

Lemma preserves_when (c : bool) (m : Js unit) :
  preserves_brain m -> preserves_brain (when c m).
Proof. intros Hm. destruct c; [exact Hm | apply preserves_ret]. Qed.

Lemma preserves_sets_at_most {A} (key : string) (m : Js A) :
  preserves_brain m -> sets_at_most key m.
Proof. intros Hm w. left. apply Hm. Qed.

Lemma sets_at_most_set (key : string) (x : JsVal) :
  sets_at_most key (robot_brain_set key x).
Proof. intros w. right. now exists x. Qed.

Lemma sets_at_most_bind_l {A B} (key : string) (m : Js A) (k : A -> Js B) :
  preserves_brain m -> (forall a, sets_at_most key (k a)) ->
  sets_at_most key (bind m k).
Proof.
  intros Hm Hk w. unfold bind. specialize (Hm w).
  destruct (m w) as [[a|e] w']; cbn [snd] in *; [| now left].
  rewrite <- Hm. apply Hk.
Qed.

Lemma sets_at_most_bind_r {A B} (key : string) (m : Js A) (k : A -> Js B) :
  sets_at_most key m -> (forall a, preserves_brain (k a)) ->
  sets_at_most key (bind m k).
Proof.
  intros Hm Hk w. unfold bind. specialize (Hm w).
  destruct (m w) as [[a|e] w']; cbn [snd] in *; [| exact Hm].
  destruct Hm as [Hm | [x Hm]]; [left | right; exists x];
    rewrite (Hk a w'); exact Hm.
Qed.

Create HintDb brain_footprint.
#[local] Hint Resolve preserves_ret preserves_throw preserves_emit
  preserves_when : brain_footprint.
#[local] Hint Extern 2 (preserves_brain (bind _ _)) =>
  apply preserves_bind; [| intros ?] : brain_footprint.

Lemma unknownError_preserves (r : VaultReply) : preserves_brain (unknownError r).
Proof. unfold unknownError. auto 10 with brain_footprint. Qed.

Lemma vault_callback_footprint (CONFIG : Config) (c : Command) (level vault_path : string) :
  sets_at_most (brain_key_of (digest c)) (vault_callback CONFIG c level vault_path).
Proof.
  unfold vault_callback.
  destruct (truthy (err (reply c)));
    [apply preserves_sets_at_most, unknownError_preserves |].
  destruct (res_statusCode (reply c)) as [code|];
    [| apply preserves_sets_at_most; auto with brain_footprint].
  destruct (_ || _);
    [apply preserves_sets_at_most; auto with brain_footprint |].
  destruct (Z.eqb code 503);
    [apply preserves_sets_at_most; auto with brain_footprint |].
  destruct (Z.ltb 299 code);
    [apply preserves_sets_at_most, unknownError_preserves |].
  destruct (JSON_parse _) as [parsedBody|];
    [| apply preserves_sets_at_most; auto with brain_footprint].
  apply sets_at_most_bind_l.
  { destruct (parse parsedBody); auto with brain_footprint. }
  intros lines.
  apply sets_at_most_bind_l; [auto with brain_footprint | intros _].
  apply sets_at_most_bind_l.
  { destruct (is_nullish parsedBody); auto with brain_footprint. }
  intros lease_duration.
  apply sets_at_most_bind_r; [apply sets_at_most_set | intros _].
  auto 10 with brain_footprint.
Qed.

Lemma respond_handler_footprint (CONFIG : Config) (c : Command) :
  sets_at_most (brain_key_of (digest c)) (respond_handler CONFIG c).
Proof.
  unfold respond_handler.
  destruct (Creds _) as [creds|];
    [| apply preserves_sets_at_most; auto with brain_footprint].
  destruct (vault_token creds) as [token|];
    [| apply preserves_sets_at_most; auto with brain_footprint].
  destruct (level_of _) as [level|];
    [| apply preserves_sets_at_most; auto with brain_footprint].
  destruct (vault_path_of _) as [vault_path|];
    [| apply preserves_sets_at_most; auto with brain_footprint].
  apply sets_at_most_bind_l; [auto with brain_footprint | intros _].
  apply vault_callback_footprint.
Qed.

(** A run of either handler keeps the key of [nonce] without an
    object-shaped value, unless it stores a record under that very nonce. *)
Lemma step_keeps_consumed (CONFIG : Config) (nonce : string) (b : Brain) (e : Event) :
  fresh_for nonce e = true ->
  object_shaped (brain_lookup b (brain_key_of nonce)) = false ->
  object_shaped (brain_lookup (step CONFIG b e) (brain_key_of nonce)) = false.
Proof.
  intros Hfresh Hinv. unfold step. destruct e as [v | c]; cbn [handle].
  - destruct (run_cases v b) as [-> | [-> | [(_ & _ & ->) | (_ & _ & ->)]]];
      unfold brain_after; cbn [snd brain]; try exact Hinv.
    destruct (decide (brain_key_of (params_nonce (req v)) = brain_key_of nonce)) as [<- | Hne].
    + now rewrite brain_lookup_deleted.
    + now rewrite brain_lookup_delete_other.
  - cbn [fresh_for] in Hfresh.
    apply negb_true_iff, String.eqb_neq in Hfresh.
    unfold brain_after, run.
    destruct (respond_handler_footprint CONFIG c {| brain := b; trace := [] |})
      as [-> | [x ->]]; cbn [brain]; [exact Hinv |].
    rewrite brain_lookup_insert_other; [exact Hinv |].
    intros Heq. now apply brain_key_of_inj in Heq.
Qed.

Lemma steps_keep_consumed (CONFIG : Config) (nonce : string) (es : list Event) (b : Brain) :
  forallb (fresh_for nonce) es = true ->
  object_shaped (brain_lookup b (brain_key_of nonce)) = false ->
  object_shaped (brain_lookup (steps CONFIG b es) (brain_key_of nonce)) = false.
Proof.
  revert b. induction es as [|e es IH]; intros b Hfresh Hinv; [exact Hinv |].
  cbn [forallb] in Hfresh. apply andb_true_iff in Hfresh as [He Hes].
  unfold steps. cbn [fold_left]. apply IH; [exact Hes |].
  now apply step_keeps_consumed.
Qed.

(** A visit that rendered a page leaves nothing to find under its nonce. *)
Lemma rendered_consumes (v : Visit) (b : Brain) :
  rendered (run (access_handler v) b) = true ->
  object_shaped (brain_lookup (brain_after (run (access_handler v) b))
                              (brain_key_of (params_nonce (req v)))) = false.
Proof.
  destruct (run_cases v b) as [-> | [-> | [(_ & Hno & ->) | (_ & _ & ->)]]];
    unfold rendered, brain_after, effects; cbn [snd brain trace];
    try discriminate.
  - intros _. exact Hno.
  - intros _. now rewrite brain_lookup_deleted.
Qed.

(** C1.  Once a visit has rendered a page for a nonce (granted, failed,
    expired or not found), no later visit with that nonce calls the
    security group, whatever runs in between (other confirmations, also of
    the same nonce, and commands, whose fresh nonces differ from it), and
    every later visit by a browser is answered with the not-found page and
    leaves the brain as it is. *)
Theorem nonce_never_reused (CONFIG : Config) (b : Brain) (first again : Visit)
    (between : list Event) :
  rendered (run (access_handler first) b) = true ->
  params_nonce (req again) = params_nonce (req first) ->
  forallb (fresh_for (params_nonce (req first))) between = true ->
  let b' := steps CONFIG (brain_after (run (access_handler first) b)) between in
  forallb (fun e => negb (is_acl_call e)) (effects (run (access_handler again) b')) = true /\
  (from_browser (req again) = true ->
   run (access_handler again) b' =
     (Normal tt,
      {| brain := b';
         trace := [BrainGet (brain_key_of (params_nonce (req again)));
                   ResRender "not_found" []] |})).
Proof.
  intros Hfirst Hnonce Hfresh b'.
  assert (Hinv : object_shaped (brain_lookup b' (brain_key_of (params_nonce (req again)))) = false).
  { rewrite Hnonce. apply steps_keep_consumed; [exact Hfresh |].
    now apply rendered_consumes. }
  split.
  - destruct (run_cases again b') as [-> | [-> | [(_ & _ & ->) | (_ & Hobj & _)]]];
      try reflexivity.
    rewrite Hinv in Hobj. discriminate.
  - intros Hb. now apply run_not_found.
Qed.

End BrainFootprint.

Lemma nonce_never_reused_witness :
  let first := visit_at (browser_request "abc") 1000 in
  let between := [Confirmation (visit_at (browser_request "abc") 2000);
                  Request_access (command "ro" "test" (ok_reply body_with_lease))] in
  let again := visit_at (browser_request "abc") 3000 in
  let b' := steps (RT := example_runtime) example_config
              (brain_after (run (@access_handler example_runtime first) pending_brain))
              between in
  rendered (run (@access_handler example_runtime first) pending_brain) = true /\
  forallb (fresh_for "abc") between = true /\
  effects (run (@access_handler example_runtime again) b') =
    [BrainGet "heimdall_access_abc"; ResRender "not_found" []].
Proof.
  split; [reflexivity |]. split; [reflexivity |].
  pose proof (@nonce_never_reused example_runtime example_config pending_brain
                (visit_at (browser_request "abc") 1000)
                (visit_at (browser_request "abc") 3000)
                [Confirmation (visit_at (browser_request "abc") 2000);
                 Request_access (command "ro" "test" (ok_reply body_with_lease))]
                eq_refl eq_refl eq_refl) as [_ H].
  cbv zeta. cbv zeta in H. rewrite (H eq_refl). reflexivity.
Defined.

(** ** The chat command: levels and environments *)

Lemma level_of_spec (token : string) :
  let level := toLowerCase token in
  (level = "read" \/ level = "ro" -> level_of token = Some "readonly") /\
  (level = "write" \/ level = "rw" -> level_of token = Some "readwrite") /\
  (level = "admin" -> level_of token = Some "admin") /\
  (~ In level accepted_levels -> level_of token = None).
Proof.
  intros level. unfold level_of. fold level. repeat split.
  - intros [-> | ->]; reflexivity.
  - intros [-> | ->]; reflexivity.
  - intros ->. reflexivity.
  - intros Hout. unfold accepted_levels in Hout. cbn [In] in Hout.
    repeat match goal with
    | |- context [String.eqb level ?s] =>
        destruct (String.eqb_spec level s) as [e | _];
          [symmetry in e; exfalso; apply Hout; tauto |]
    end.
    reflexivity.
Qed.

Lemma vault_path_of_spec (token : string) :
  let env := toLowerCase token in
  (env = "prod" \/ env = "production" -> vault_path_of token = Some "db_production") /\
  (env = "test" -> vault_path_of token = Some "db_test") /\
  (~ In env accepted_environments -> vault_path_of token = None).
Proof.
  intros env. unfold vault_path_of. fold env. repeat split.
  - intros [-> | ->]; reflexivity.
  - intros ->. reflexivity.
  - intros Hout. unfold accepted_environments in Hout. cbn [In] in Hout.
    repeat match goal with
    | |- context [String.eqb env ?s] =>
        destruct (String.eqb_spec env s) as [e | _];
          [symmetry in e; exfalso; apply Hout; tauto |]
    end.
    reflexivity.
Qed.

Lemma level_of_accepted (token level : string) :
  level_of token = Some level ->
  In (toLowerCase token) accepted_levels /\
  In level ["readonly"; "readwrite"; "admin"].
Proof.
  unfold level_of, accepted_levels.
  repeat match goal with
  | |- context [String.eqb ?t ?s] => destruct (String.eqb_spec t s) as [-> | ?]
  end; cbn [orb]; intros [= <-]; cbn [In]; tauto.
Qed.

Lemma vault_path_of_accepted (token vault_path : string) :
  vault_path_of token = Some vault_path ->
  In (toLowerCase token) accepted_environments /\
  In vault_path ["db_production"; "db_test"].
Proof.
  unfold vault_path_of, accepted_environments.
  repeat match goal with
  | |- context [String.eqb ?t ?s] => destruct (String.eqb_spec t s) as [-> | ?]
  end; cbn [orb]; intros [= <-]; cbn [In]; tauto.
Qed.

(** [spelled_alike] and [toLowerCase] agree. *)
Lemma same_letter_table :
  forallb (fun a =>
     forallb (fun b => Bool.eqb (same_letter a b)
                                (Ascii.eqb (lower_char a) (lower_char b)))
             (map ascii_of_nat (seq 0 256)))
    (map ascii_of_nat (seq 0 256)) = true.
Proof. vm_compute. reflexivity. Qed.

Lemma ascii_listed (a : ascii) : In a (map ascii_of_nat (seq 0 256)).
Proof.
  rewrite <- (ascii_nat_embedding a). apply in_map, in_seq.
  pose proof (nat_ascii_bounded a). lia.
Qed.

Lemma same_letter_spec (a b : ascii) :
  same_letter a b = true <-> lower_char a = lower_char b.
Proof.
  pose proof same_letter_table as H.
  rewrite forallb_forall in H. specialize (H a (ascii_listed a)).
  rewrite forallb_forall in H. specialize (H b (ascii_listed b)).
  apply Bool.eqb_prop in H. rewrite H. apply Ascii.eqb_eq.
Qed.

Lemma spelled_alike_spec (s t : string) :
  spelled_alike s t = true <-> toLowerCase s = toLowerCase t.
Proof.
  revert t. induction s as [|a s IH]; intros [|b t]; cbn [spelled_alike toLowerCase];
    try (split; [reflexivity | reflexivity]); try (split; discriminate).
  rewrite andb_true_iff, same_letter_spec, IH. split.
  - now intros [-> ->].
  - intros [= -> ->]. now split.
Qed.

Lemma spelled_like_accepted (token : string) (words : list string) :
  Forall (fun w => toLowerCase w = w) words ->
  existsb (spelled_alike token) words = true <-> In (toLowerCase token) words.
Proof.
  intros Hw. rewrite List.Forall_forall in Hw. rewrite existsb_exists. split.
  - intros (w & Hin & Hs). apply spelled_alike_spec in Hs.
    rewrite Hs, (Hw w Hin). exact Hin.
  - intros Hin. exists (toLowerCase token). split; [exact Hin |].
    apply spelled_alike_spec. now rewrite (Hw _ Hin).
Qed.

Lemma accepted_levels_small : Forall (fun w => toLowerCase w = w) accepted_levels.
Proof. repeat constructor. Qed.

Lemma accepted_environments_small :
  Forall (fun w => toLowerCase w = w) accepted_environments.
Proof. repeat constructor. Qed.

Section Levels.
Context `{RT : Runtime}.
Variable CONFIG : Config.

(** The two [switch]es, on the lowered words. *)
Lemma respond_handler_cases (c : Command) (b : Brain) (creds : UserCreds) (token : string) :
  Creds (envelope_user (msg c)) = Some creds ->
  vault_token creds = Some token ->
  let m := msg c in
  let level := toLowerCase (match_1 m) in
  let env := toLowerCase (match_2 m) in
  let r := run (respond_handler CONFIG c) b in
  (~ In level accepted_levels ->
     r = (Normal tt,
          {| brain := b; trace := [MsgSend (unknown_level_text CONFIG m JUndefined)] |})) /\
  (In level accepted_levels -> ~ In env accepted_environments ->
     r = (Normal tt,
          {| brain := b; trace := [MsgSend (unknown_environment_text CONFIG m)] |})) /\
  (In level accepted_levels -> In env accepted_environments ->
     exists level' vault_path,
       level_of (match_1 m) = Some level' /\
       vault_path_of (match_2 m) = Some vault_path /\
       r = run (emit (HttpGet (util_format "%s/v1/%s/creds/%s"
                                 [JStr (Urls_vault_base_url CONFIG);
                                  JStr vault_path; JStr level'])
                              token);;
                vault_callback CONFIG c level' vault_path) b).
Proof.
  intros Hc Ht. cbv zeta.
  pose proof (level_of_spec (match_1 (msg c))) as HL. cbv zeta in HL.
  pose proof (vault_path_of_spec (match_2 (msg c))) as HE. cbv zeta in HE.
  destruct HL as (L1 & L2 & L3 & L4). destruct HE as (E1 & E2 & E3).
  assert (Hlevel : In (toLowerCase (match_1 (msg c))) accepted_levels ->
                   exists l, level_of (match_1 (msg c)) = Some l).
  { unfold accepted_levels. cbn [In].
    intros [H | [H | [H | [H | [H | []]]]]]; symmetry in H; eauto. }
  assert (Henv : In (toLowerCase (match_2 (msg c))) accepted_environments ->
                 exists p, vault_path_of (match_2 (msg c)) = Some p).
  { unfold accepted_environments. cbn [In].
    intros [H | [H | [H | []]]]; symmetry in H; eauto. }
  repeat split.
  - intros Hout. unfold run, respond_handler.
    rewrite Hc, Ht, (L4 Hout). reflexivity.
  - intros Hin Hout. destruct (Hlevel Hin) as [l El].
    unfold run, respond_handler.
    rewrite Hc, Ht, El, (E3 Hout). reflexivity.
  - intros Hl He. destruct (Hlevel Hl) as [l El]. destruct (Henv He) as [p Ep].
    exists l, p. repeat split; try assumption.
    unfold run, respond_handler. rewrite Hc, Ht, El, Ep. reflexivity.
Qed.

(** C7.  For a caller who has a Vault token, the level and the environment
    are read without regard to the case of their letters: a word spelled
    like [read] or [ro], in whatever mix of small and capital letters,
    gives [readonly], one spelled like [write] or [rw] gives [readwrite],
    one spelled like [admin] gives [admin]; one spelled like [prod] or
    [production] gives the path [db_production], one spelled like [test]
    gives [db_test].  A level spelled like none of these words, or an
    accepted level with an environment spelled like none of its words, gets
    the one message that names the accepted words and nothing else: no
    request to Vault, no access to the brain.  With both accepted, the
    request to Vault is made for the level and the path so found. *)
Theorem synonyms_or_rejection (c : Command) (b : Brain) (creds : UserCreds) (token : string) :
  Creds (envelope_user (msg c)) = Some creds ->
  vault_token creds = Some token ->
  let m := msg c in
  let level := match_1 m in
  let env := match_2 m in
  let r := run (respond_handler CONFIG c) b in
  (spelled_alike level "read" = true \/ spelled_alike level "ro" = true ->
     level_of level = Some "readonly") /\
  (spelled_alike level "write" = true \/ spelled_alike level "rw" = true ->
     level_of level = Some "readwrite") /\
  (spelled_alike level "admin" = true -> level_of level = Some "admin") /\
  (spelled_alike env "prod" = true \/ spelled_alike env "production" = true ->
     vault_path_of env = Some "db_production") /\
  (spelled_alike env "test" = true -> vault_path_of env = Some "db_test") /\
  (existsb (spelled_alike level) accepted_levels = false ->
     level_of level = None /\
     r = (Normal tt,
          {| brain := b; trace := [MsgSend (unknown_level_text CONFIG m JUndefined)] |})) /\
  (existsb (spelled_alike level) accepted_levels = true ->
   existsb (spelled_alike env) accepted_environments = false ->
     vault_path_of env = None /\
     r = (Normal tt,
          {| brain := b; trace := [MsgSend (unknown_environment_text CONFIG m)] |})) /\
  (existsb (spelled_alike level) accepted_levels = true ->
   existsb (spelled_alike env) accepted_environments = true ->
     exists level' vault_path,
       level_of level = Some level' /\
       vault_path_of env = Some vault_path /\
       r = run (emit (HttpGet (util_format "%s/v1/%s/creds/%s"
                                 [JStr (Urls_vault_base_url CONFIG);
                                  JStr vault_path; JStr level'])
                              token);;
                vault_callback CONFIG c level' vault_path) b).
Proof.
  intros Hc Ht. cbv zeta.
  pose proof (level_of_spec (match_1 (msg c))) as HL. cbv zeta in HL.
  pose proof (vault_path_of_spec (match_2 (msg c))) as HE. cbv zeta in HE.
  destruct HL as (L1 & L2 & L3 & L4). destruct HE as (E1 & E2 & E3).
  destruct (respond_handler_cases c b creds token Hc Ht) as (R1 & R2 & R3).
  pose proof (spelled_like_accepted (match_1 (msg c)) _ accepted_levels_small) as HinL.
  pose proof (spelled_like_accepted (match_2 (msg c)) _ accepted_environments_small) as HinE.
  assert (HoutL : existsb (spelled_alike (match_1 (msg c))) accepted_levels = false ->
                  ~ In (toLowerCase (match_1 (msg c))) accepted_levels).
  { intros Hf Hin. apply HinL in Hin. congruence. }
  assert (HoutE : existsb (spelled_alike (match_2 (msg c))) accepted_environments = false ->
                  ~ In (toLowerCase (match_2 (msg c))) accepted_environments).
  { intros Hf Hin. apply HinE in Hin. congruence. }
  repeat apply conj.
  - intros [H | H]; apply spelled_alike_spec in H; apply L1; [now left | now right].
  - intros [H | H]; apply spelled_alike_spec in H; apply L2; [now left | now right].
  - intros H. apply spelled_alike_spec in H. now apply L3.
  - intros [H | H]; apply spelled_alike_spec in H; apply E1; [now left | now right].
  - intros H. apply spelled_alike_spec in H. now apply E2.
  - intros H. split; [apply L4, HoutL, H | apply R1, HoutL, H].
  - intros Hl He. split; [apply E3, HoutE, He |].
    apply R2; [apply HinL, Hl | apply HoutE, He].
  - intros Hl He. apply R3; [apply HinL, Hl | apply HinE, He].
Qed.

End Levels.

Lemma synonyms_or_rejection_witness :
  let c := command "ReAd" "PROD" (ok_reply body_with_lease) in
  spelled_alike (match_1 (msg c)) "read" = true /\
  spelled_alike (match_2 (msg c)) "prod" = true /\
  level_of (match_1 (msg c)) = Some "readonly" /\
  vault_path_of (match_2 (msg c)) = Some "db_production".
Proof.
  pose proof (@synonyms_or_rejection example_runtime example_config
                (command "ReAd" "PROD" (ok_reply body_with_lease)) ∅
                {| vault_token := Some "s.token" |} "s.token" eq_refl eq_refl)
    as (Hread & _ & _ & Hprod & _).
  split; [reflexivity |]. split; [reflexivity |].
  split; [apply Hread; left; reflexivity | apply Hprod; left; reflexivity].
Defined.

Example level_ignores_case : level_of "ReAd" = Some "readonly" /\ level_of "RW" = Some "readwrite".
Proof. split; reflexivity. Qed.

Example environment_ignores_case :
  vault_path_of "PROD" = Some "db_production" /\ vault_path_of "Test" = Some "db_test".
Proof. split; reflexivity. Qed.

(** ** The message for a rejected token *)

Section Rejected.
Context `{RT : Runtime}.
Variable CONFIG : Config.

(** The message for a rejected level is built from the user's name alone:
    two commands of the same user with different rejected levels get the
    same message. *)
Lemma rejected_level_is_not_reported (c c' : Command) (b b' : Brain)
    (creds creds' : UserCreds) (token token' : string) :
  Creds (envelope_user (msg c)) = Some creds -> vault_token creds = Some token ->
  Creds (envelope_user (msg c')) = Some creds' -> vault_token creds' = Some token' ->
  name (envelope_user (msg c)) = name (envelope_user (msg c')) ->
  level_of (match_1 (msg c)) = None ->
  level_of (match_1 (msg c')) = None ->
  effects (run (respond_handler CONFIG c) b) =
  effects (run (respond_handler CONFIG c') b').
Proof.
  intros Hc Ht Hc' Ht' Hname Hl Hl'. unfold run, respond_handler.
  rewrite Hc, Ht, Hc', Ht', Hl, Hl'. unfold unknown_level_text.
  now rewrite Hname.
Qed.

End Rejected.

(** C9.  The command [give me bogus access to test database] is answered
    with a message that names the accepted levels but prints [undefined]
    where the rejected level should stand: line 121 passes the variable
    [level], unassigned in the [default] case, where line 139 passes
    [msg.match[2]] for a rejected environment. *)
Theorem rejected_level_prints_undefined :
  effects (run (respond_handler (RT := example_runtime) example_config
                  (command "bogus" "test" (ok_reply body_with_lease))) ∅)
  = [MsgSend ("I'm sorry dave, I'm afraid I can't do that." +:+ LF +:+
              "Unknown access level *undefined*." +:+ LF +:+
              "Must be read, ro, write, rw or admin")]
  /\
  effects (run (respond_handler (RT := example_runtime) example_config
                  (command "ro" "staging" (ok_reply body_with_lease))) ∅)
  = [MsgSend ("I'm sorry dave, I'm afraid I can't do that." +:+ LF +:+
              "Unknown environment *staging*." +:+ LF +:+
              "Must be production, prod or test")].
Proof. split; vm_compute; reflexivity. Qed.

(** ** Vault's answer *)

Section Lease.
Context `{RT : Runtime}.
Variable CONFIG : Config.

Lemma successful_inv (r : VaultReply) :
  successful r = true ->
  truthy (err r) = false /\
  exists statusCode,
    res_statusCode r = Some statusCode /\
    Z.eqb statusCode 401 || Z.eqb statusCode 400 || Z.eqb statusCode 404 = false /\
    Z.eqb statusCode 503 = false /\
    Z.ltb 299 statusCode = false.
Proof.
  unfold successful. intros H.
  apply andb_true_iff in H as [He H]. apply negb_true_iff in He.
  split; [exact He |].
  destruct (res_statusCode r) as [code|]; [| discriminate].
  apply andb_true_iff in H as [H H3]. apply andb_true_iff in H as [H1 H2].
  apply negb_true_iff in H1, H2, H3. now exists code.
Qed.

(** C4, as the script has it.  When Vault answered, the body parses to a
    value other than [null] and the listing of its fields does not throw,
    the listing is sent, the record is stored with, as its
    [lease_duration], whatever the parsed body holds under that name
    ([undefined] when the field is absent, the value as it is when it is not
    a number), and the confirmation link is sent.  When the listing throws
    (an object of the body has a field named [hasOwnProperty]) the callback
    ends with that [TypeError], and nothing is sent or stored.  Only a body
    that does not parse is reported as a failure to parse, with nothing
    stored and no link sent. *)
Theorem lease_duration_is_not_checked (c : Command) (b : Brain) (level vault_path : string) :
  successful (reply c) = true ->
  let r := run (vault_callback CONFIG c level vault_path) b in
  let text := ToString (body_value (body (reply c))) in
  (forall parsedBody lines,
     JSON_parse text = Some parsedBody ->
     parse parsedBody = Some lines ->
     is_nullish parsedBody = false ->
     completion r = Normal tt /\
     brain_after r =
       brain_insert b (brain_key_of (digest c))
         (lease_record vault_path (issued_at c) (get_prop parsedBody "lease_duration")) /\
     In (RobotSend (name (envelope_user (msg c))) (join LF ("Here ya go:" :: lines)))
        (effects r) /\
     In (RobotSend (name (envelope_user (msg c))) (confirmation_link CONFIG (digest c)))
        (effects r)) /\
  (forall parsedBody,
     JSON_parse text = Some parsedBody ->
     parse parsedBody = None ->
     r = (Throw TypeError, {| brain := b; trace := [] |})) /\
  (JSON_parse text = None ->
     r = (Normal tt,
          {| brain := b;
             trace := [MsgReply [JStr "An error occurred parsing the vault response";
                                 body_value (body (reply c))]] |})).
Proof.
  intros (He & code & Hs & H1 & H2 & H3)%successful_inv. cbv zeta.
  unfold run, vault_callback. rewrite He, Hs, H1, H2, H3.
  split; [| split].
  - intros parsedBody lines -> Hp Hnn. rewrite Hp, Hnn.
    unfold completion, brain_after, effects, bind, emit, ret, robot_brain_set, when.
    cbn [fst snd brain trace app].
    destruct (bool_decide _); cbn [fst snd brain trace app];
      (split; [reflexivity |]; split; [reflexivity |]);
      cbn [In]; unfold confirmation_link;
      (split; repeat (first [left; reflexivity | right])).
  - intros parsedBody -> Hp. rewrite Hp. reflexivity.
  - intros ->. reflexivity.
Qed.

End Lease.

(** C4, as stated, fails: Vault answers 200 with the body [{}], which has
    no [lease_duration]; the command stores a record whose [lease_duration]
    is [undefined] and sends the confirmation link. *)
Lemma missing_lease_duration_is_stored :
  let r := run (respond_handler (RT := example_runtime) example_config
                  (command "ro" "test" (ok_reply body_without_lease))) ∅ in
  JSON_parse (Runtime := example_runtime) body_without_lease = Some (JObj []) /\
  completion r = Normal tt /\
  effects r =
    [HttpGet "https://vault.example.org/v1/db_test/creds/readonly" "s.token";
     RobotSend "dave" "Here ya go:";
     BrainSet "heimdall_access_c0ffee" (lease_record "db_test" 0 JUndefined);
     RobotSend "dave"
       ("Direct your browser here to enable access to DB from your current IP address"
        +:+ LF +:+ "https://hubot.example.org/heimdall/access/c0ffee")] /\
  brain_after r !! "heimdall_access_c0ffee" = Some (lease_record "db_test" 0 JUndefined).
Proof. vm_compute. repeat split. Qed.

Lemma lease_duration_is_not_checked_witness :
  let c := command "ro" "test" (ok_reply body_without_lease) in
  successful (reply c) = true /\
  brain_after (run (vault_callback (RT := example_runtime) example_config c
                      "readonly" "db_test") ∅)
  = brain_insert ∅ "heimdall_access_c0ffee" (lease_record "db_test" 0 JUndefined).
Proof.
  split; [reflexivity |].
  exact (proj1 (proj2 (proj1
    (@lease_duration_is_not_checked example_runtime example_config
       (command "ro" "test" (ok_reply body_without_lease)) ∅
       "readonly" "db_test" eq_refl) (JObj []) [] eq_refl eq_refl eq_refl))).
Defined.

(** A body with a field named [hasOwnProperty]: the listing throws, and
    the command ends after its request to Vault, with nothing said and
    nothing stored. *)
Example listing_throws :
  JSON_parse (Runtime := example_runtime_shadowed) body_with_hasOwnProperty
    = Some (JObj [("hasOwnProperty", JNum (Int 1))]) /\
  parse (JObj [("hasOwnProperty", JNum (Int 1))]) = None /\
  run (respond_handler (RT := example_runtime_shadowed) example_config
         (command "ro" "test" (ok_reply body_with_hasOwnProperty))) ∅ =
    (Throw TypeError,
     {| brain := ∅;
        trace := [HttpGet "https://vault.example.org/v1/db_test/creds/readonly"
                    "s.token"] |}).
Proof. vm_compute. repeat split. Qed.

(** ** [util.format] *)

Lemma string_ind2 (P : string -> Prop) :
  P EmptyString ->
  (forall c, P (String c EmptyString)) ->
  (forall c d s, P s -> P (String d s) -> P (String c (String d s))) ->
  forall s, P s.
Proof.
  intros H0 H1 H2 s.
  enough (P s /\ forall c, P (String c s)) by tauto.
  induction s as [|d s [IHs IHc]]; [split; [exact H0 | exact H1] |].
  split; [apply IHc |]. intros c. apply H2; [exact IHs | apply IHc].
Qed.

Lemma last_char_cons (c : ascii) (s : string) : last_char (String c s) <> None.
Proof. cbn [last_char]. now destruct (last_char s). Qed.

Lemma last_char_app_cons (a : string) (c : ascii) (b : string) :
  last_char (a +:+ String c b) = last_char (String c b).
Proof.
  induction a as [|x a IH]; [reflexivity |].
  rewrite append_cons. change (last_char (String x ?s))
    with (match last_char s with Some y => Some y | None => Some x end).
  rewrite IH. pose proof (last_char_cons c b).
  now destruct (last_char (String c b)).
Qed.

Section FormatProperties.
Context `{RT : Runtime}.

Lemma snd_copy (c : ascii) (p : string * list JsVal) :
  snd (let '(out, unused) := p in (String c out, unused)) = snd p.
Proof. now destruct p. Qed.

Lemma fst_copy (c : ascii) (p : string * list JsVal) :
  fst (let '(out, unused) := p in (String c out, unused)) = String c (fst p).
Proof. now destruct p. Qed.

Lemma snd_piece (s : string) (p : string * list JsVal) :
  snd (let '(out, unused) := p in (s +:+ out, unused)) = snd p.
Proof. now destruct p. Qed.

Lemma format_core_cons (c : ascii) (f' : string) (args : list JsVal) :
  format_core (String c f') args =
    let copy := let '(out, unused) := format_core f' args in
                (String c out, unused) in
    if Ascii.eqb c "%" then
      match f' with
      | EmptyString => copy
      | String d rest =>
          if Ascii.eqb d "%" then
            let '(out, unused) := format_core rest args in
            (String "%" out, unused)
          else if Ascii.eqb d "s" || Ascii.eqb d "d" || Ascii.eqb d "j" then
            match args with
            | [] => copy
            | a :: args' =>
                let piece :=
                  if Ascii.eqb d "s" then ToString a
                  else if Ascii.eqb d "d" then NumberToString (ToNumber a)
                  else JSON_stringify a in
                let '(out, unused) := format_core rest args' in
                (piece +:+ out, unused)
            end
          else copy
      end
    else copy.
Proof. destruct f'; reflexivity. Qed.

Lemma placeholders_cons (c : ascii) (f' : string) :
  placeholders (String c f') =
    if Ascii.eqb c "%" then
      match f' with
      | EmptyString => 0%nat
      | String d rest =>
          if Ascii.eqb d "%" then placeholders rest
          else if Ascii.eqb d "s" || Ascii.eqb d "d" || Ascii.eqb d "j"
          then S (placeholders rest)
          else placeholders f'
      end
    else placeholders f'.
Proof. destruct f'; reflexivity. Qed.

Ltac format_step c d rest :=
  rewrite ?(format_core_cons c (String d rest)), ?(placeholders_cons c (String d rest));
  cbv beta iota zeta.

(** The arguments a format string leaves are those after the first
    [placeholders f]. *)
Lemma format_core_unused (f : string) :
  forall args, snd (format_core f args) = drop (placeholders f) args.
Proof.
  induction f as [| c | c d rest IHrest IHd] using string_ind2; intros args.
  - reflexivity.
  - cbn [format_core placeholders]. destruct (Ascii.eqb c "%"); reflexivity.
  - format_step c d rest.
    destruct (Ascii.eqb c "%").
    + destruct (Ascii.eqb d "%").
      * rewrite snd_copy. apply IHrest.
      * destruct (_ || _).
        -- destruct args as [|a args'].
           ++ rewrite snd_copy, IHd. now rewrite !drop_nil.
           ++ rewrite snd_piece. apply IHrest.
        -- rewrite snd_copy. apply IHd.
    + rewrite snd_copy. apply IHd.
Qed.

(** A format string without placeholders prints the same whatever the
    arguments. *)
Lemma format_core_constant (f : string) :
  placeholders f = 0%nat ->
  forall args args', fst (format_core f args) = fst (format_core f args').
Proof.
  induction f as [| c | c d rest IHrest IHd] using string_ind2; intros H0 args args'.
  - reflexivity.
  - cbn [format_core]. destruct (Ascii.eqb c "%"); reflexivity.
  - revert H0. rewrite (format_core_cons c (String d rest) args).
    rewrite (format_core_cons c (String d rest) args').
    rewrite (placeholders_cons c (String d rest)). cbv beta iota zeta.
    destruct (Ascii.eqb c "%").
    + destruct (Ascii.eqb d "%").
      * intros H0. rewrite !fst_copy. f_equal. now apply IHrest.
      * destruct (_ || _); [discriminate |].
        intros H0. rewrite !fst_copy. f_equal. now apply IHd.
    + intros H0. rewrite !fst_copy. f_equal. now apply IHd.
Qed.

Lemma format_core_LF (g : string) (args : list JsVal) :
  format_core (LF +:+ g) args =
    let '(out, unused) := format_core g args in (String "010" out, unused).
Proof.
  change (LF +:+ g) with (String "010" g). rewrite format_core_cons.
  reflexivity.
Qed.

(** Formatting [f] followed by a line feed and [g] is formatting [f], then
    the rest with the arguments [f] left. *)
Lemma format_core_app (f g : string) :
  forall args,
    format_core (f +:+ LF +:+ g) args =
      let '(out1, unused1) := format_core f args in
      let '(out2, unused2) := format_core (LF +:+ g) unused1 in
      (out1 +:+ out2, unused2).
Proof.
  induction f as [| c | c d rest IHrest IHd] using string_ind2; intros args.
  - change (EmptyString +:+ LF +:+ g) with (LF +:+ g). cbn [format_core].
    now destruct (format_core (LF +:+ g) args).
  - change (String c EmptyString +:+ LF +:+ g) with (String c (String "010" g)).
    rewrite format_core_cons. cbv beta iota zeta.
    change (String "010" g) with (LF +:+ g).
    cbn [format_core]. cbn [Ascii.eqb Bool.eqb andb orb].
    destruct (Ascii.eqb c "%"); now destruct (format_core (LF +:+ g) args).
  - change (String c (String d rest) +:+ LF +:+ g)
      with (String c (String d (rest +:+ LF +:+ g))).
    rewrite (format_core_cons c (String d (rest +:+ LF +:+ g))).
    rewrite (format_core_cons c (String d rest)). cbv beta iota zeta.
    change (String d (rest +:+ LF +:+ g)) with (String d rest +:+ LF +:+ g).
    destruct (Ascii.eqb c "%").
    + destruct (Ascii.eqb d "%").
      * rewrite IHrest. destruct (format_core rest args) as [o1 u1].
        now destruct (format_core (LF +:+ g) u1).
      * destruct (_ || _).
        -- destruct args as [|a args'].
           ++ rewrite IHd. destruct (format_core (String d rest) []) as [o1 u1].
              now destruct (format_core (LF +:+ g) u1).
           ++ rewrite IHrest. destruct (format_core rest args') as [o1 u1].
              destruct (format_core (LF +:+ g) u1).
              now rewrite append_assoc.
        -- rewrite IHd. destruct (format_core (String d rest) args) as [o1 u1].
           now destruct (format_core (LF +:+ g) u1).
    + rewrite IHd. destruct (format_core (String d rest) args) as [o1 u1].
      now destruct (format_core (LF +:+ g) u1).
Qed.

End FormatProperties.

(** ** The failures of a request to Vault *)

Section Failures.
Context `{RT : Runtime}.
Variable CONFIG : Config.

Lemma unknownError_run (r : VaultReply) (w : World) :
  unknownError r w =
    (Normal tt, {| brain := brain w; trace := trace w ++ unknownError_report r |}).
Proof.
  unfold unknownError, unknownError_report, bind, emit, when, ret.
  cbn [brain trace].
  destruct (res_statusCode r) as [code|];
    [destruct (truthy (JNum (Int code))) |];
    destruct (truthy (err r)); destruct (truthy (body_value (body r)));
    cbn [brain trace app]; rewrite <- ?app_assoc; reflexivity.
Qed.

Lemma not_authorized_is_not_sealed (m m' : Message) (level vault_path : string) :
  not_authorized_text CONFIG m level vault_path <> sealed_text CONFIG m'.
Proof.
  unfold not_authorized_text, sealed_text, util_format.
  rewrite !format_core_app.
  pose proof (format_core_unused (Strings_sorry_dave CONFIG)) as Hunused.
  pose proof (format_core_constant (Strings_sorry_dave CONFIG)) as Hconst.
  set (sorry := Strings_sorry_dave CONFIG) in *.
  set (args := [JStr (name (envelope_user m)); JStr level; JStr vault_path]).
  set (args' := [JStr (name (envelope_user m'))]).
  pose proof (Hunused args) as H1. pose proof (Hunused args') as H2.
  destruct (placeholders sorry) as [|k] eqn:Ek.
  - specialize (Hconst eq_refl args args').
    destruct (format_core sorry args) as [o1 u1].
    destruct (format_core sorry args') as [o2 u2].
    cbn [fst snd] in *. subst u1 u2 o2. cbn [drop].
    unfold args, args'. rewrite !format_core_LF. cbn. rewrite !append_assoc.
    intros H. apply append_cancel_l in H.
    rewrite !append_cons in H. discriminate H.
  - destruct (format_core sorry args) as [o1 u1].
    destruct (format_core sorry args') as [o2 u2].
    cbn [fst snd] in *. subst u1 u2. unfold args, args'.
    intros H. apply (f_equal last_char) in H. revert H.
    rewrite !format_core_LF.
    destruct k as [|[|k]]; cbn [drop]; rewrite ?drop_nil; cbn;
      rewrite !append_empty_r;
      repeat (rewrite ?last_char_app_cons; cbn [last_char]);
      discriminate.
Qed.

Lemma vault_callback_transport (c : Command) (level vault_path : string) (b : Brain) :
  failure_of (reply c) = Some BackendUnreachable ->
  truthy (err (reply c)) = true /\
  run (vault_callback CONFIG c level vault_path) b =
    (Normal tt, {| brain := b; trace := unknownError_report (reply c) |}).
Proof.
  unfold failure_of, run, vault_callback.
  destruct (truthy (err (reply c))).
  - intros _. split; [reflexivity |]. now rewrite unknownError_run.
  - destruct (res_statusCode (reply c)) as [code|]; [| discriminate].
    destruct (_ || _); [discriminate |].
    destruct (Z.eqb code 503); [discriminate |].
    destruct (Z.ltb 299 code); discriminate.
Qed.

Lemma vault_callback_status (c : Command) (level vault_path : string) (b : Brain)
    (f : Failure) :
  failure_of (reply c) = Some f -> f <> BackendUnreachable ->
  truthy (err (reply c)) = false /\
  exists code,
    res_statusCode (reply c) = Some code /\
    match f with
    | BackendUnreachable => False
    | Unauthorized =>
        run (vault_callback CONFIG c level vault_path) b =
          (Normal tt,
           {| brain := b;
              trace := [MsgSend (not_authorized_text CONFIG (msg c) level vault_path)] |})
    | BackendUnavailable =>
        code = 503 /\
        run (vault_callback CONFIG c level vault_path) b =
          (Normal tt, {| brain := b; trace := [MsgSend (sealed_text CONFIG (msg c))] |})
    | UnknownBackendError =>
        299 < code /\
        run (vault_callback CONFIG c level vault_path) b =
          (Normal tt, {| brain := b; trace := unknownError_report (reply c) |})
    end.
Proof.
  unfold failure_of, run, vault_callback.
  destruct (truthy (err (reply c))); [intros [= <-] Hne; now destruct Hne |].
  destruct (res_statusCode (reply c)) as [code|]; [| discriminate].
  intros Hf _. split; [reflexivity |]. exists code. split; [reflexivity |].
  destruct (_ || _); [injection Hf as <-; reflexivity |].
  destruct (Z.eqb_spec code 503) as [E | _]; [injection Hf as <-; now split |].
  destruct (Z.ltb_spec 299 code); [| discriminate].
  injection Hf as <-. split; [assumption |]. now rewrite unknownError_run.
Qed.

Lemma run_unauthorized (c : Command) (level vault_path : string) (b : Brain) :
  failure_of (reply c) = Some Unauthorized ->
  run (vault_callback CONFIG c level vault_path) b =
    (Normal tt,
     {| brain := b;
        trace := [MsgSend (not_authorized_text CONFIG (msg c) level vault_path)] |}).
Proof.
  intros H.
  destruct (vault_callback_status c level vault_path b Unauthorized H)
    as (_ & code & _ & Hrun); [discriminate | exact Hrun].
Qed.

Lemma run_unavailable (c : Command) (level vault_path : string) (b : Brain) :
  failure_of (reply c) = Some BackendUnavailable ->
  run (vault_callback CONFIG c level vault_path) b =
    (Normal tt, {| brain := b; trace := [MsgSend (sealed_text CONFIG (msg c))] |}).
Proof.
  intros H.
  destruct (vault_callback_status c level vault_path b BackendUnavailable H)
    as (_ & code & _ & _ & Hrun); [discriminate | exact Hrun].
Qed.

Lemma run_unknown_status (c : Command) (level vault_path : string) (b : Brain) :
  failure_of (reply c) = Some UnknownBackendError ->
  truthy (err (reply c)) = false /\
  (exists code, res_statusCode (reply c) = Some code /\ 299 < code) /\
  run (vault_callback CONFIG c level vault_path) b =
    (Normal tt, {| brain := b; trace := unknownError_report (reply c) |}).
Proof.
  intros H.
  destruct (vault_callback_status c level vault_path b UnknownBackendError H)
    as (He & code & Hs & Hc & Hrun); [discriminate |].
  split; [exact He |]. split; [now exists code | exact Hrun].
Qed.

Lemma status_is_truthy (code : Z) : 299 < code -> truthy (JNum (Int code)) = true.
Proof.
  intros H. cbn [truthy]. apply negb_true_iff, Z.eqb_neq. lia.
Qed.

(** The report of a transport failure carries a line [Error: ...]; the
    report of an unexpected status has none, and starts with the status. *)
Lemma transport_report_is_not_status_report (r r' : VaultReply) (code : Z) :
  truthy (err r) = true ->
  truthy (err r') = false -> res_statusCode r' = Some code -> 299 < code ->
  unknownError_report r <> unknownError_report r'.
Proof.
  intros He He' Hs Hc. unfold unknownError_report.
  rewrite He, He', Hs, (status_is_truthy code Hc).
  destruct (res_statusCode r) as [code0|];
    [destruct (truthy (JNum (Int code0))) |];
    destruct (truthy (body_value (body r)));
    destruct (truthy (body_value (body r')));
    cbn [app]; intros H; simplify_eq.
Qed.

(** C8.  The four failures of a request to Vault are reported in four
    different ways, so that the caller can tell them apart: a transport
    failure by the replies of [unknownError] with a line [Error: ...]; an
    unexpected status above 299 by the replies of [unknownError] with the
    status and without such a line; the statuses 401, 400 and 404 by one
    message that depends on the caller, the level and the path only, not on
    what Vault answered; the status 503 by another message.  None of them
    stores anything. *)
Theorem failures_are_told_apart (c1 c2 : Command) (b1 b2 : Brain)
    (level1 path1 level2 path2 : string) (f1 f2 : Failure) :
  failure_of (reply c1) = Some f1 ->
  failure_of (reply c2) = Some f2 ->
  f1 <> f2 ->
  let r1 := run (vault_callback CONFIG c1 level1 path1) b1 in
  let r2 := run (vault_callback CONFIG c2 level2 path2) b2 in
  effects r1 <> effects r2 /\
  completion r1 = Normal tt /\
  brain_after r1 = b1 /\
  match f1 with
  | BackendUnreachable =>
      effects r1 = unknownError_report (reply c1) /\
      In (MsgReply [JStr ("Error: " +:+ ToString (err (reply c1)))]) (effects r1)
  | Unauthorized =>
      effects r1 = [MsgSend (not_authorized_text CONFIG (msg c1) level1 path1)]
  | BackendUnavailable =>
      effects r1 = [MsgSend (sealed_text CONFIG (msg c1))]
  | UnknownBackendError =>
      effects r1 = unknownError_report (reply c1) /\
      exists code,
        res_statusCode (reply c1) = Some code /\
        In (MsgReply [JStr ("Status code: " +:+ NumberToString (Int code))]) (effects r1) /\
        ~ In (MsgReply [JStr ("Error: " +:+ ToString (err (reply c1)))]) (effects r1)
  end.
Proof.
  intros H1 H2 Hne. cbv zeta.
  assert (Hhead : forall r, exists t, unknownError_report r = MsgReply
            [JStr "An error occurred talking to vault, please try again in a few moments"] :: t)
    by (intros r; eexists; reflexivity).
  assert (R1 : exists e1,
    run (vault_callback CONFIG c1 level1 path1) b1 = (Normal tt, {| brain := b1; trace := e1 |})).
  { destruct f1.
    - destruct (vault_callback_transport c1 level1 path1 b1 H1) as [_ ->]. eauto.
    - rewrite (run_unauthorized c1 level1 path1 b1 H1). eauto.
    - rewrite (run_unavailable c1 level1 path1 b1 H1). eauto.
    - destruct (run_unknown_status c1 level1 path1 b1 H1) as (_ & _ & ->). eauto. }
  split; [| split; [| split]].
  - unfold effects.
    destruct f1;
      [ destruct (vault_callback_transport c1 level1 path1 b1 H1) as [He1 ->]
      | rewrite (run_unauthorized c1 level1 path1 b1 H1)
      | rewrite (run_unavailable c1 level1 path1 b1 H1)
      | destruct (run_unknown_status c1 level1 path1 b1 H1) as (He1 & (code1 & Hs1 & Hc1) & ->) ];
    (destruct f2;
      [ destruct (vault_callback_transport c2 level2 path2 b2 H2) as [He2 ->]
      | rewrite (run_unauthorized c2 level2 path2 b2 H2)
      | rewrite (run_unavailable c2 level2 path2 b2 H2)
      | destruct (run_unknown_status c2 level2 path2 b2 H2) as (He2 & (code2 & Hs2 & Hc2) & ->) ]);
    try (now destruct Hne); cbn [snd trace];
    try (destruct (Hhead (reply c1)) as [t ->]; discriminate);
    try (destruct (Hhead (reply c2)) as [t ->]; discriminate).
    + now apply transport_report_is_not_status_report with code2.
    + intros E. apply (not_authorized_is_not_sealed (msg c1) (msg c2) level1 path1).
      now injection E.
    + intros E. apply (not_authorized_is_not_sealed (msg c2) (msg c1) level2 path2).
      now injection E.
    + intros E. symmetry in E. revert E.
      now apply transport_report_is_not_status_report with code1.
  - destruct R1 as [e1 ->]. reflexivity.
  - destruct R1 as [e1 ->]. reflexivity.
  - destruct f1.
    + destruct (vault_callback_transport c1 level1 path1 b1 H1) as [He ->].
      unfold effects. cbn [snd trace]. split; [reflexivity |].
      unfold unknownError_report. rewrite He.
      apply in_app_iff. right. apply in_app_iff. right.
      apply in_app_iff. left. now left.
    + now rewrite (run_unauthorized c1 level1 path1 b1 H1).
    + now rewrite (run_unavailable c1 level1 path1 b1 H1).
    + destruct (run_unknown_status c1 level1 path1 b1 H1) as (He & (code & Hs & Hc) & ->).
      unfold effects. cbn [snd trace]. split; [reflexivity |].
      exists code. split; [exact Hs |].
      unfold unknownError_report. rewrite He, Hs, (status_is_truthy code Hc).
      split.
      * cbn [app]. right. now left.
      * destruct (truthy (body_value (body (reply c1))));
          cbn [app In]; intros H; intuition simplify_eq.
Qed.

End Failures.

Lemma failures_are_told_apart_witness :
  let c1 := command "ro" "test" refused_reply in
  let c2 := command "ro" "test" (status_reply 500 "internal error") in
  failure_of (reply c1) = Some BackendUnreachable /\
  failure_of (reply c2) = Some UnknownBackendError /\
  effects (run (vault_callback (RT := example_runtime) example_config c1
                  "readonly" "db_test") ∅)
  <> effects (run (vault_callback (RT := example_runtime) example_config c2
                     "readonly" "db_test") ∅).
Proof.
  split; [reflexivity |]. split; [reflexivity |].
  exact (proj1
    (@failures_are_told_apart example_runtime example_config
       (command "ro" "test" refused_reply)
       (command "ro" "test" (status_reply 500 "internal error")) ∅ ∅
       "readonly" "db_test" "readonly" "db_test"
       BackendUnreachable UnknownBackendError eq_refl eq_refl
       ltac:(discriminate))).
Defined.

(** Status 401: the message does not carry what Vault answered. *)
Example unauthorized_report :
  effects (run (respond_handler (RT := example_runtime) example_config
                  (command "rw" "prod" (status_reply 401 "permission denied"))) ∅)
  = [HttpGet "https://vault.example.org/v1/db_production/creds/readwrite" "s.token";
     MsgSend ("I'm sorry dave, I'm afraid I can't do that." +:+ LF +:+
              "You're not authorized to request *readwrite* access to *db_production* database")].
Proof. vm_compute. reflexivity. Qed.

(** ** The crawler pattern *)

Lemma toLowerCase_app (a b : string) :
  toLowerCase (a +:+ b) = toLowerCase a +:+ toLowerCase b.
Proof.
  induction a as [|x a IH]; [reflexivity |].
  rewrite append_cons. cbn [toLowerCase]. rewrite append_cons. now f_equal.
Qed.

Lemma prefix_ci_spec (p s : string) :
  prefix_ci p s = true <->
  exists mid post, s = mid +:+ post /\ toLowerCase mid = toLowerCase p.
Proof.
  revert s. induction p as [|a p IH]; intros s.
  - split; [intros _; now exists EmptyString, s | reflexivity].
  - destruct s as [|b s]; cbn [prefix_ci toLowerCase].
    + split; [discriminate |]. intros (mid & post & Hs & Hm).
      destruct mid; [discriminate Hm | discriminate Hs].
    + rewrite andb_true_iff, Ascii.eqb_eq, IH. split.
      * intros (Hab & mid & post & -> & Hm).
        exists (String b mid), post. split; [reflexivity |].
        cbn [toLowerCase]. now rewrite Hm, Hab.
      * intros (mid & post & Hs & Hm).
        destruct mid as [|x mid]; [discriminate Hm |].
        rewrite append_cons in Hs. injection Hs as -> ->.
        cbn [toLowerCase] in Hm. injection Hm as Hx Hm.
        split; [now symmetry |]. now exists mid, post.
Qed.

(** X19.  [matches_Slackbot]: the test of line 46 succeeds exactly when the
    word [slackbot] occurs somewhere in the user agent, in whatever letter
    case. *)
Lemma matches_Slackbot_spec (user_agent : string) :
  matches_Slackbot user_agent = true <->
  exists pre mid post,
    user_agent = pre +:+ mid +:+ post /\ toLowerCase mid = "slackbot".
Proof.
  unfold matches_Slackbot.
  change "slackbot" with (toLowerCase "Slackbot").
  generalize "Slackbot" as p. intros p.
  induction user_agent as [|c s IH].
  - cbn [search_ci]. rewrite orb_false_r, prefix_ci_spec. split.
    + intros (mid & post & Hs & Hm). now exists EmptyString, mid, post.
    + intros (pre & mid & post & Hs & Hm).
      destruct pre; [now exists mid, post | discriminate Hs].
  - cbn [search_ci]. rewrite orb_true_iff, prefix_ci_spec, IH. split.
    + intros [(mid & post & Hs & Hm) | (pre & mid & post & -> & Hm)].
      * now exists EmptyString, mid, post.
      * now exists (String c pre), mid, post.
    + intros (pre & mid & post & Hs & Hm). destruct pre as [|x pre].
      * left. now exists mid, post.
      * right. rewrite append_cons in Hs. injection Hs as -> ->.
        now exists pre, mid, post.
Qed.

(** ** From the command to the confirmation *)

(** A [readonly] lease of 600 seconds on [test], confirmed 100 seconds
    later from [10.0.0.5]: the test security group is opened for
    [10.0.0.5/32] for the 500000 milliseconds that remain. *)
Example confirmed_in_time :
  let b := step (RT := example_runtime) example_config ∅
             (Request_access (command "read" "test" (ok_reply body_with_lease))) in
  effects (run (@access_handler example_runtime
                  (visit_at (browser_request "c0ffee") 100000)) b)
  = [BrainGet "heimdall_access_c0ffee";
     AllowAccessToIp (JStr "db-uwhisp-test") "10.0.0.5/32" (Int 500000);
     ResRender "ip_success" [("ip", "10.0.0.5/32"); ("ttl", "8 minutes")];
     BrainRemove "heimdall_access_c0ffee"].
Proof. vm_compute. reflexivity. Qed.

(** The same lease confirmed after 700 seconds: not found, no call. *)
Example confirmed_too_late :
  let b := step (RT := example_runtime) example_config ∅
             (Request_access (command "read" "test" (ok_reply body_with_lease))) in
  effects (run (@access_handler example_runtime
                  (visit_at (browser_request "c0ffee") 700000)) b)
  = [BrainGet "heimdall_access_c0ffee"; ResRender "not_found" [];
     BrainRemove "heimdall_access_c0ffee"].
Proof. vm_compute. reflexivity. Qed.

(** * Further properties of the two handlers *)

(** ** What the chat command emits *)

Section Emissions.
Context `{RT : Runtime}.

Lemma emits_only_ret (P : Effect -> bool) {A} (a : A) : emits_only P (ret a).
Proof. intros w. exists []. now rewrite app_nil_r. Qed.

Lemma emits_only_throw (P : Effect -> bool) {A} (e : Exn) : emits_only P (@throw A e).
Proof. intros w. exists []. now rewrite app_nil_r. Qed.

Lemma emits_only_emit (P : Effect -> bool) (e : Effect) :
  P e = true -> emits_only P (emit e).
Proof. intros H w. exists [e]. cbn. now rewrite H. Qed.

Lemma emits_only_set (P : Effect -> bool) (key : string) (x : JsVal) :
  P (BrainSet key x) = true -> emits_only P (robot_brain_set key x).
Proof. intros H w. exists [BrainSet key x]. cbn. now rewrite H. Qed.

Lemma emits_only_bind (P : Effect -> bool) {A B} (m : Js A) (k : A -> Js B) :
  emits_only P m -> (forall a, emits_only P (k a)) -> emits_only P (bind m k).
Proof.
  intros Hm Hk w. unfold bind. destruct (Hm w) as (t1 & E1 & F1).
  destruct (m w) as [[a|e] w']; cbn [snd] in *; [| now exists t1].
  destruct (Hk a w') as (t2 & E2 & F2).
  exists (t1 ++ t2)%list. rewrite E2, E1, app_assoc.
  split; [reflexivity |]. now rewrite forallb_app, F1, F2.
Qed.

Lemma emits_only_when (P : Effect -> bool) (c : bool) (m : Js unit) :
  emits_only P m -> emits_only P (when c m).
Proof. intros Hm. destruct c; [exact Hm | apply emits_only_ret]. Qed.

Create HintDb emissions.
#[local] Hint Resolve emits_only_ret emits_only_throw emits_only_when : emissions.
#[local] Hint Extern 1 (emits_only _ (emit _)) =>
  apply emits_only_emit; reflexivity : emissions.
#[local] Hint Extern 1 (emits_only _ (robot_brain_set _ _)) =>
  apply emits_only_set; reflexivity : emissions.
#[local] Hint Extern 2 (emits_only _ (bind _ _)) =>
  apply emits_only_bind; [| intros ?] : emissions.

Lemma unknownError_emissions (r : VaultReply) : emits_only chat_or_store (unknownError r).
Proof. unfold unknownError. auto 10 with emissions. Qed.

Lemma vault_callback_emissions (CONFIG : Config) (c : Command) (level vault_path : string) :
  emits_only chat_or_store (vault_callback CONFIG c level vault_path).
Proof.
  unfold vault_callback.
  destruct (truthy (err (reply c))); [apply unknownError_emissions |].
  destruct (res_statusCode (reply c)) as [code|]; [| auto with emissions].
  destruct (_ || _); [auto with emissions |].
  destruct (Z.eqb code 503); [auto with emissions |].
  destruct (Z.ltb 299 code); [apply unknownError_emissions |].
  destruct (JSON_parse _) as [parsedBody|]; [| auto with emissions].
  apply emits_only_bind.
  { destruct (parse parsedBody); auto with emissions. }
  intros lines.
  apply emits_only_bind; [auto with emissions | intros _].
  apply emits_only_bind.
  { destruct (is_nullish parsedBody); auto with emissions. }
  intros lease_duration. auto 10 with emissions.
Qed.

Lemma chat_or_store_harmless (t : list Effect) :
  forallb chat_or_store t = true ->
  forallb off_the_route t = true /\ List.filter is_vault_call t = [].
Proof.
  induction t as [|e t IH]; [now split |].
  cbn [forallb List.filter]. intros [He Ht]%andb_true_iff.
  destruct (IH Ht) as [-> ->]. now destruct e.
Qed.

Lemma util_format_url (base vault_path level : string) :
  util_format "%s/v1/%s/creds/%s" [JStr base; JStr vault_path; JStr level]
  = base +:+ "/v1/" +:+ vault_path +:+ "/creds/" +:+ level.
Proof.
  unfold util_format. cbn. now rewrite !append_empty_r.
Qed.

(** X1.  A user without credentials, or whose credentials hold no Vault
    token, is told that a token is needed, whatever the level and the
    environment asked for: Vault is not asked and the brain is left alone. *)
Theorem no_token_no_request (CONFIG : Config) (c : Command) (b : Brain) :
  match Creds (envelope_user (msg c)) with
  | None => True
  | Some creds => vault_token creds = None
  end ->
  run (respond_handler CONFIG c) b =
    (Normal tt, {| brain := b; trace := [MsgSend (needs_token_text CONFIG (msg c))] |}).
Proof.
  intros H. unfold run, respond_handler.
  destruct (Creds (envelope_user (msg c))) as [creds|]; [| reflexivity].
  now rewrite H.
Qed.

(** X2.  Whatever the command and Vault's reply, the chat command asks
    Vault at most once, and never opens the security group, never answers
    an HTTP request, and never reads or removes a key of the brain. *)
Theorem command_is_confined (CONFIG : Config) (c : Command) (b : Brain) :
  let t := effects (run (respond_handler CONFIG c) b) in
  (length (List.filter is_vault_call t) <= 1)%nat /\
  forallb off_the_route t = true.
Proof.
  cbv zeta. unfold run, respond_handler, effects.
  destruct (Creds _) as [creds|]; [| cbn; auto].
  destruct (vault_token creds) as [token|]; [| cbn; auto].
  destruct (level_of _) as [level|]; [| cbn; auto].
  destruct (vault_path_of _) as [vault_path|]; [| cbn; auto].
  unfold bind, emit. cbn [brain trace app].
  destruct (vault_callback_emissions CONFIG c level vault_path
              {| brain := b; trace := [HttpGet (util_format "%s/v1/%s/creds/%s"
                   [JStr (Urls_vault_base_url CONFIG); JStr vault_path; JStr level]) token] |})
    as (t & -> & Ht). cbn [trace app].
  apply chat_or_store_harmless in Ht as [Hoff Hnone].
  cbn [List.filter is_vault_call forallb]. rewrite Hnone, Hoff.
  split; [cbn; lia | reflexivity].
Qed.

(** X3.  A command of a user with a token, with an accepted level and an
    accepted environment, first asks Vault for
    [<base>/v1/<path>/creds/<level>] with the user's own token, and
    nothing after that is another request to Vault. *)
Theorem valid_command_requests_credentials (CONFIG : Config) (c : Command) (b : Brain)
    (creds : UserCreds) (token level vault_path : string) :
  Creds (envelope_user (msg c)) = Some creds ->
  vault_token creds = Some token ->
  level_of (match_1 (msg c)) = Some level ->
  vault_path_of (match_2 (msg c)) = Some vault_path ->
  exists t,
    effects (run (respond_handler CONFIG c) b) =
      HttpGet (Urls_vault_base_url CONFIG +:+ "/v1/" +:+ vault_path +:+ "/creds/" +:+ level)
              token :: t /\
    forallb chat_or_store t = true.
Proof.
  intros Hc Ht Hl Hp. unfold run, respond_handler, effects.
  rewrite Hc, Ht, Hl, Hp. unfold bind, emit. cbn [brain trace app].
  rewrite util_format_url.
  destruct (vault_callback_emissions CONFIG c level vault_path
              {| brain := b;
                 trace := [HttpGet (Urls_vault_base_url CONFIG +:+ "/v1/" +:+ vault_path
                                    +:+ "/creds/" +:+ level) token] |})
    as (t & -> & Ht'). cbn [trace app]. now exists t.
Qed.

End Emissions.

Lemma no_token_no_request_witness :
  run (respond_handler (RT := example_runtime) example_config stranger_command) ∅ =
    (Normal tt,
     {| brain := ∅;
        trace := [MsgSend (needs_token_text (RT := example_runtime) example_config
                             (msg stranger_command))] |}).
Proof.
  exact (@no_token_no_request example_runtime example_config stranger_command ∅ I).
Defined.

Lemma valid_command_requests_credentials_witness :
  exists t,
    effects (run (respond_handler (RT := example_runtime) example_config
                    (command "RO" "Prod" (status_reply 503 "sealed"))) ∅) =
      HttpGet "https://vault.example.org/v1/db_production/creds/readonly" "s.token" :: t /\
    forallb chat_or_store t = true.
Proof.
  exact (@valid_command_requests_credentials example_runtime example_config
           (command "RO" "Prod" (status_reply 503 "sealed")) ∅
           {| vault_token := Some "s.token" |} "s.token" "readonly" "db_production"
           eq_refl eq_refl eq_refl eq_refl).
Defined.

(** ** One visit *)

Section Visits.
Context `{RT : Runtime}.


(** X5.  A visit changes the brain at most at the key of its own nonce:
    every other key holds after the visit what it held before. *)
Theorem visit_touches_only_its_key (v : Visit) (b : Brain) (key : string) :
  key <> brain_key_of (params_nonce (req v)) ->
  brain_after (run (access_handler v) b) !! key = b !! key.
Proof.
  intros Hne.
  destruct (run_cases v b) as [-> | [-> | [(_ & _ & ->) | (_ & _ & ->)]]];
    unfold brain_after; cbn [snd brain]; try reflexivity.
  unfold brain_delete.
  destruct (b !! brain_key_of (params_nonce (req v))) as [x|]; [| reflexivity].
  destruct (is_nullish x); [reflexivity |].
  now apply lookup_delete_ne.
Qed.




End Visits.

Lemma visit_touches_only_its_key_witness :
  brain_after (run (@access_handler example_runtime (visit_at (browser_request "zzz") 1000))
                   pending_brain) !! "heimdall_access_abc"
  = pending_brain !! "heimdall_access_abc".
Proof.
  exact (@visit_touches_only_its_key example_runtime
           (visit_at (browser_request "zzz") 1000) pending_brain
           "heimdall_access_abc" ltac:(discriminate)).
Defined.



(** Outside the range of X7 the quotient is rounded before it is floored:
    with 9007199254799999 milliseconds left, less than 150119987580
    minutes, the page reads 150119987580 minutes. *)
Example minutes_beyond_the_exact_range :
  let b : Brain :=
    {[ "heimdall_access_abc" := lease_record "db_test" 0 (JNum (Int 9007199254800)) ]} in
  effects (run (@access_handler example_runtime (visit_at (browser_request "abc") 1)) b) =
    [BrainGet "heimdall_access_abc";
     AllowAccessToIp (JStr "db-uwhisp-test") "10.0.0.5/32" (Int 9007199254800000);
     ResRender "ip_success"
       [("ip", "10.0.0.5/32"); ("ttl", "150119987580 minutes")];
     BrainRemove "heimdall_access_abc"].
Proof. vm_compute. reflexivity. Qed.

(** ** From the command to the visit *)




Section Lifecycle.
Context `{RT : Runtime}.
Variable CONFIG : Config.




(** X8.  A command changes the brain at most at the key of its own digest:
    every other key holds after the command what it held before. *)
Theorem command_touches_only_its_key (c : Command) (b : Brain) (key : string) :
  key <> brain_key_of (digest c) ->
  brain_after (run (respond_handler CONFIG c) b) !! key = b !! key.
Proof.
  intros Hne. unfold brain_after, run.
  destruct (respond_handler_footprint CONFIG c {| brain := b; trace := [] |})
    as [-> | [x ->]]; cbn [brain]; [reflexivity |].
  unfold brain_insert. now apply lookup_insert_ne.
Qed.

(** X9.  Every path the environment [switch] produces has a security group
    in [SecGroupForVaultPath]: [db_production] has [db-uwhisp-production]
    and [db_test] has [db-uwhisp-test]. *)
Theorem vault_path_has_security_group (token vault_path : string) :
  vault_path_of token = Some vault_path ->
  (vault_path = "db_production" /\
   assoc (ToString (JStr vault_path)) SecGroupForVaultPath = JStr "db-uwhisp-production") \/
  (vault_path = "db_test" /\
   assoc (ToString (JStr vault_path)) SecGroupForVaultPath = JStr "db-uwhisp-test").
Proof.
  intros H. apply vault_path_of_accepted in H as [_ H]. cbn [In] in H.
  destruct H as [<- | [<- | []]]; [left | right]; split; reflexivity.
Qed.



(** X12.  When Vault's body parses to [null], the command sends the bare
    heading of the credentials and then throws on reading
    [parsedBody.lease_duration]: no record is stored and no link is
    sent. *)
Theorem null_body_throws (c : Command) (b : Brain) (level vault_path : string)
    (parsedBody : JsVal) :
  successful (reply c) = true ->
  JSON_parse (body_text (reply c)) = Some parsedBody ->
  is_nullish parsedBody = true ->
  run (vault_callback CONFIG c level vault_path) b =
    (Throw TypeError,
     {| brain := b;
        trace := [RobotSend (name (envelope_user (msg c))) "Here ya go:"] |}).
Proof.
  intros (He & code & Hs & H1 & H2 & H3)%successful_inv Hj Hnn.
  unfold body_text in Hj.
  unfold run, vault_callback. rewrite He, Hs, H1, H2, H3, Hj, Hnn.
  destruct parsedBody; try discriminate Hnn; reflexivity.
Qed.

End Lifecycle.

Lemma command_touches_only_its_key_witness :
  brain_after (run (respond_handler (RT := example_runtime) example_config
                      (command "ro" "test" (ok_reply body_with_lease))) pending_brain)
    !! "heimdall_access_abc"
  = pending_brain !! "heimdall_access_abc".
Proof.
  exact (@command_touches_only_its_key example_runtime example_config
           (command "ro" "test" (ok_reply body_with_lease)) pending_brain
           "heimdall_access_abc" ltac:(discriminate)).
Defined.

Lemma vault_path_has_security_group_witness :
  assoc (ToString (JStr "db_production")) SecGroupForVaultPath = JStr "db-uwhisp-production".
Proof.
  destruct (vault_path_has_security_group "PROD" "db_production" eq_refl)
    as [[_ H] | [H _]]; [exact H | discriminate H].
Defined.



Lemma null_body_throws_witness :
  run (vault_callback (RT := example_runtime_null) example_config
         (command "ro" "test" (ok_reply "null")) "readonly" "db_test") ∅ =
    (Throw TypeError, {| brain := ∅; trace := [RobotSend "dave" "Here ya go:"] |}).
Proof.
  exact (@null_body_throws example_runtime_null example_config
           (command "ro" "test" (ok_reply "null")) ∅ "readonly" "db_test" JNull
           eq_refl eq_refl eq_refl).
Defined.

(** ** The listing of the credentials *)

Lemma has_own_app (k : string) (f1 f2 : list (string * JsVal)) :
  has_own k (f1 ++ f2) = has_own k f1 || has_own k f2.
Proof. unfold has_own. apply existsb_app. Qed.

Lemma has_own_cons (k k' : string) (v : JsVal) (rest : list (string * JsVal)) :
  has_own k ((k', v) :: rest) = String.eqb k k' || has_own k rest.
Proof. reflexivity. Qed.

Lemma parse_object_throws (fields : list (string * JsVal)) :
  has_own "hasOwnProperty" fields = true -> parse (JObj fields) = None.
Proof. intros H. cbn [parse]. now rewrite H. Qed.

Lemma parse_object_cons (k : string) (v : JsVal) (rest : list (string * JsVal)) :
  has_own "hasOwnProperty" ((k, v) :: rest) = false ->
  parse (JObj ((k, v) :: rest)) =
    then_lines (field_lines k v (parse v)) (parse (JObj rest)).
Proof.
  intros H. cbn [parse]. rewrite H.
  rewrite has_own_cons in H. apply orb_false_iff in H as [_ ->]. reflexivity.
Qed.

Lemma then_lines_assoc (a b c : option (list string)) :
  then_lines (then_lines a b) c = then_lines a (then_lines b c).
Proof.
  destruct a as [a|], b as [b|], c as [c|]; cbn [then_lines]; try reflexivity.
  now rewrite app_assoc.
Qed.

Lemma parse_object_app (f1 f2 : list (string * JsVal)) :
  has_own "hasOwnProperty" (f1 ++ f2) = false ->
  parse (JObj (f1 ++ f2)) = then_lines (parse (JObj f1)) (parse (JObj f2)).
Proof.
  induction f1 as [|[k v] f1 IH]; intros H.
  - cbn [app] in *. now destruct (parse (JObj f2)).
  - assert (H1 : has_own "hasOwnProperty" ((k, v) :: f1) = false).
    { rewrite has_own_app in H. now apply orb_false_iff in H as [-> _]. }
    rewrite <- app_comm_cons in H |- *.
    assert (H' : has_own "hasOwnProperty" (f1 ++ f2) = false).
    { rewrite has_own_cons in H. now apply orb_false_iff in H as [_ ->]. }
    rewrite (parse_object_cons _ _ _ H), (parse_object_cons _ _ _ H1).
    now rewrite (IH H'), then_lines_assoc.
Qed.

(** X13.  The listing is flat: the fields of a nested object, whatever its
    name but [hasOwnProperty], are listed as if they stood in its place
    (the name of the nested object is not printed), and a field of such a
    name whose value is [null] is not listed at all.  This holds of the
    lines listed and of the listings that throw, which are the same on
    both sides. *)
Theorem parse_flattens (f1 f2 inner : list (string * JsVal)) (k : string) :
  k <> "hasOwnProperty" ->
  parse (JObj (f1 ++ (k, JObj inner) :: f2)) = parse (JObj (f1 ++ inner ++ f2)) /\
  parse (JObj (f1 ++ (k, JNull) :: f2)) = parse (JObj (f1 ++ f2)).
Proof.
  intros Hk.
  assert (Ek : String.eqb "hasOwnProperty" k = false)
    by (apply String.eqb_neq; congruence).
  destruct (has_own "hasOwnProperty" f1) eqn:E1.
  { rewrite !parse_object_throws; [now split | ..];
      rewrite ?has_own_app, E1; reflexivity. }
  destruct (has_own "hasOwnProperty" f2) eqn:E2.
  { rewrite !parse_object_throws; [now split | ..];
      rewrite ?has_own_app, ?has_own_cons, E2, ?orb_true_r; reflexivity. }
  assert (Hcons : forall v, has_own "hasOwnProperty" ((k, v) :: f2) = false)
    by (intros v; now rewrite has_own_cons, Ek, E2).
  assert (Happ : forall v, has_own "hasOwnProperty" (f1 ++ (k, v) :: f2) = false)
    by (intros v; now rewrite has_own_app, E1, Hcons).
  split.
  - rewrite (parse_object_app _ _ (Happ _)), (parse_object_cons _ _ _ (Hcons _)).
    change (field_lines k (JObj inner) (parse (JObj inner))) with (parse (JObj inner)).
    destruct (has_own "hasOwnProperty" inner) eqn:Ei.
    + rewrite (parse_object_throws inner Ei).
      rewrite (parse_object_throws (f1 ++ inner ++ f2))
        by (rewrite !has_own_app, Ei, orb_true_r; reflexivity).
      now destruct (parse (JObj f1)).
    + rewrite (parse_object_app f1 (inner ++ f2))
        by (now rewrite !has_own_app, E1, Ei, E2).
      rewrite (parse_object_app inner f2) by (now rewrite has_own_app, Ei, E2).
      reflexivity.
  - rewrite (parse_object_app _ _ (Happ _)), (parse_object_cons _ _ _ (Hcons _)).
    rewrite (parse_object_app f1 f2) by (now rewrite has_own_app, E1, E2).
    change (field_lines k JNull (parse JNull)) with (Some (@nil string)).
    now destruct (parse (JObj f2)).
Qed.

Lemma parse_flattens_witness :
  parse (JObj [("lease_duration", JNum (Int 600));
               ("data", JObj [("username", JStr "u-1"); ("password", JStr "p-1")]);
               ("renewable", JBool true)])
  = Some ["lease_duration: 600"; "*username*: u-1"; "*password*: p-1"; "renewable: true"].
Proof.
  exact (eq_trans
           (proj1 (parse_flattens
              [("lease_duration", JNum (Int 600))] [("renewable", JBool true)]
              [("username", JStr "u-1"); ("password", JStr "p-1")] "data"
              ltac:(discriminate)))
           eq_refl).
Defined.

(** X14.  An object whose values are all primitive and none of whose
    fields is named [hasOwnProperty] is listed field by field, in the order
    of the fields, one line [name: value] each, with stars around the names
    [username] and [password]. *)
Theorem parse_flat_object (fields : list (string * JsVal)) :
  forallb (fun kv => is_primitive (snd kv)) fields = true ->
  has_own "hasOwnProperty" fields = false ->
  parse (JObj fields) = Some (map (fun kv => credential_line (fst kv) (snd kv)) fields).
Proof.
  induction fields as [|[k v] fields IH]; [reflexivity |].
  cbn [forallb snd fst map]. intros [Hv Hrest]%andb_true_iff Hown.
  rewrite (parse_object_cons _ _ _ Hown).
  rewrite has_own_cons in Hown. apply orb_false_iff in Hown as [_ Hown].
  rewrite (IH Hrest Hown).
  unfold is_primitive in Hv. apply negb_true_iff in Hv.
  unfold field_lines. now rewrite Hv.
Qed.

Lemma parse_flat_object_witness :
  parse (JObj [("lease_duration", JNum (Int 600)); ("username", JStr "u-1");
               ("password", JStr "p-1"); ("renewable", JBool true)])
  = Some ["lease_duration: 600"; "*username*: u-1"; "*password*: p-1"; "renewable: true"].
Proof.
  exact (parse_flat_object
           [("lease_duration", JNum (Int 600)); ("username", JStr "u-1");
            ("password", JStr "p-1"); ("renewable", JBool true)] eq_refl eq_refl).
Defined.

(** ** The address, once more *)

Lemma occurs_app (c : ascii) (a b : string) :
  occurs c (a +:+ b) = occurs c a || occurs c b.
Proof.
  induction a as [|x a IH]; [reflexivity |].
  rewrite append_cons. cbn [occurs]. now rewrite IH, orb_assoc.
Qed.

Lemma remove_spaces_keeps_absent (c : ascii) (s : string) :
  occurs c s = false -> occurs c (remove_spaces s) = false.
Proof.
  induction s as [|x s IH]; [reflexivity |].
  cbn [occurs remove_spaces]. intros [Hx Hs]%orb_false_iff.
  destruct (Ascii.eqb x " "); [now apply IH |].
  cbn [occurs]. now rewrite Hx, IH.
Qed.

(** X15.  An address taken from a proxy header is free of spaces, and one
    taken from [x-forwarded-for] is free of commas as well: what is passed
    to the security group is then a single token followed by [/32]. *)
Theorem header_address_is_one_token (r : Request) :
  (forall real,
     headers r !! "x-real-ip" = Some real ->
     occurs " " (client_ip r) = false) /\
  (forall chain,
     headers r !! "x-real-ip" = None ->
     headers r !! "x-forwarded-for" = Some chain ->
     occurs " " (client_ip r) = false /\ occurs "," (client_ip r) = false).
Proof.
  unfold client_ip. split.
  - intros real ->. cbn [ToString].
    now rewrite occurs_app, remove_spaces_clean.
  - intros chain -> ->. cbn [ToString]. rewrite !occurs_app, remove_spaces_clean.
    split; [reflexivity |].
    rewrite remove_spaces_keeps_absent; [reflexivity |].
    apply first_hop_spec.
Qed.

Lemma header_address_is_one_token_witness :
  occurs " " (client_ip (browser_request "abc")) = false /\
  occurs "," (client_ip (browser_request "abc")) = false.
Proof.
  exact (proj2 (header_address_is_one_token (browser_request "abc"))
           "10.0.0.5, 192.168.1.1" eq_refl eq_refl).
Defined.

(** ** The words of the command *)

(** X16.  The words the two [switch]es produce are not themselves among the
    words they accept, [admin] apart: [readonly] and [readwrite] are
    rejected as levels, and [db_production] and [db_test] are rejected as
    environments. *)
Theorem canonical_names_are_not_synonyms (token : string) :
  (forall level, level_of token = Some level ->
     (level_of level = Some level <-> level = "admin") /\
     (level <> "admin" -> level_of level = None)) /\
  (forall vault_path, vault_path_of token = Some vault_path ->
     vault_path_of vault_path = None).
Proof.
  split.
  - intros level [_ H]%level_of_accepted. cbn [In] in H.
    destruct H as [<- | [<- | [<- | []]]]; split;
      try (split; [discriminate | discriminate]);
      try reflexivity; try (intros H; now destruct H).
    split; reflexivity.
  - intros vault_path [_ H]%vault_path_of_accepted. cbn [In] in H.
    destruct H as [<- | [<- | []]]; reflexivity.
Qed.

Lemma canonical_names_are_not_synonyms_witness :
  level_of "readonly" = None /\ vault_path_of "db_test" = None.
Proof.
  split.
  - exact (proj2 (proj1 (canonical_names_are_not_synonyms "RO") "readonly" eq_refl)
             ltac:(discriminate)).
  - exact (proj2 (canonical_names_are_not_synonyms "test") "db_test" eq_refl).
Defined.

(** ** The messages for a rejected word *)

Section Messages.
Context `{RT : Runtime}.

Lemma fst_piece (s : string) (p : string * list JsVal) :
  fst (let '(out, unused) := p in (s +:+ out, unused)) = s +:+ fst p.
Proof. now destruct p. Qed.

(** A format string prints from its first [placeholders f] arguments
    only. *)
Lemma format_core_take (f : string) :
  forall args,
    fst (format_core f args) = fst (format_core f (take (placeholders f) args)).
Proof.
  induction f as [| c | c d rest IHrest IHd] using string_ind2; intros args.
  - reflexivity.
  - cbn [format_core]. destruct (Ascii.eqb c "%"); reflexivity.
  - rewrite (format_core_cons c (String d rest) args).
    rewrite (format_core_cons c (String d rest) (take _ args)).
    rewrite (placeholders_cons c (String d rest)). cbv beta iota zeta.
    destruct (Ascii.eqb c "%").
    + destruct (Ascii.eqb d "%").
      * rewrite !fst_copy. f_equal. apply IHrest.
      * destruct (_ || _).
        -- destruct args as [|a args'].
           ++ reflexivity.
           ++ cbn [take]. rewrite !fst_piece. f_equal. apply IHrest.
        -- rewrite !fst_copy. f_equal. apply IHd.
    + rewrite !fst_copy. f_equal. apply IHd.
Qed.

(** With a greeting that takes one argument, a text made of the greeting,
    a line feed and [g] is the greeting of the first argument followed by
    [g] formatted with the others. *)
Lemma format_after_greeting (sorry g : string) (a : JsVal) (others : list JsVal) :
  placeholders sorry = 1%nat ->
  util_format (sorry +:+ LF +:+ g) (a :: others) =
    fst (format_core sorry [a]) +:+ util_format (LF +:+ g) others.
Proof.
  intros H1. unfold util_format. rewrite format_core_app.
  pose proof (format_core_unused sorry (a :: others)) as Hu.
  pose proof (format_core_take sorry (a :: others)) as Ht.
  rewrite H1 in Hu, Ht.
  change (drop 1 (a :: others)) with others in Hu.
  change (take 1 (a :: others)) with [a] in Ht.
  destruct (format_core sorry (a :: others)) as [o u]. cbn [fst snd] in Hu, Ht.
  subst o u.
  destruct (format_core (LF +:+ g) others) as [o2 u2].
  cbv beta iota zeta. now rewrite append_assoc.
Qed.

Variable CONFIG : Config.
Hypothesis one_name : placeholders (Strings_sorry_dave CONFIG) = 1%nat.

(** X17.  With a greeting that takes the user's name and nothing else, the
    message for a rejected environment is the greeting, then the rejected
    word as the user typed it (letter case kept) between stars, then the
    accepted words. *)
Theorem rejected_environment_is_reported (m : Message) :
  unknown_environment_text CONFIG m =
    fst (format_core (Strings_sorry_dave CONFIG) [JStr (name (envelope_user m))])
    +:+ LF +:+ "Unknown environment *" +:+ match_2 m +:+ "*." +:+ LF +:+
    "Must be production, prod or test".
Proof.
  unfold unknown_environment_text.
  rewrite (format_after_greeting _ _ _ _ one_name).
  f_equal. unfold util_format. rewrite format_core_LF.
  match goal with
  | |- context [format_core ?f _] =>
      let f' := eval vm_compute in f in change f with f'
  end.
  cbn. rewrite !append_empty_r. reflexivity.
Qed.

(** X18.  With the same greeting, the message for a rejected level is the
    greeting, then [undefined] between stars whatever the rejected word
    was, then the accepted words. *)
Theorem rejected_level_reads_undefined (c : Command) (b : Brain)
    (creds : UserCreds) (token : string) :
  Creds (envelope_user (msg c)) = Some creds ->
  vault_token creds = Some token ->
  level_of (match_1 (msg c)) = None ->
  effects (run (respond_handler CONFIG c) b) =
    [MsgSend
       (fst (format_core (Strings_sorry_dave CONFIG)
               [JStr (name (envelope_user (msg c)))])
        +:+ LF +:+ "Unknown access level *undefined*." +:+ LF +:+
        "Must be read, ro, write, rw or admin")].
Proof.
  intros Hc Ht Hl. unfold run, respond_handler. rewrite Hc, Ht, Hl.
  unfold effects, emit. cbn [snd trace app]. do 2 f_equal.
  unfold unknown_level_text.
  rewrite (format_after_greeting _ _ _ _ one_name).
  f_equal.
Qed.

End Messages.

Lemma rejected_environment_is_reported_witness :
  unknown_environment_text (RT := example_runtime) example_config
    (msg (command "ro" "Staging" (ok_reply body_with_lease)))
  = "I'm sorry dave, I'm afraid I can't do that." +:+ LF +:+
    "Unknown environment *Staging*." +:+ LF +:+ "Must be production, prod or test".
Proof.
  exact (@rejected_environment_is_reported example_runtime example_config eq_refl
           (msg (command "ro" "Staging" (ok_reply body_with_lease)))).
Defined.

Lemma rejected_level_reads_undefined_witness :
  effects (run (respond_handler (RT := example_runtime) example_config
                  (command "root" "test" (ok_reply body_with_lease))) ∅) =
    [MsgSend ("I'm sorry dave, I'm afraid I can't do that." +:+ LF +:+
              "Unknown access level *undefined*." +:+ LF +:+
              "Must be read, ro, write, rw or admin")].
Proof.
  exact (@rejected_level_reads_undefined example_runtime example_config eq_refl
           (command "root" "test" (ok_reply body_with_lease)) ∅
           {| vault_token := Some "s.token" |} "s.token" eq_refl eq_refl eq_refl).
Defined.

(** ** The status of Vault's reply *)

Section Status.
Context `{RT : Runtime}.
Variable CONFIG : Config.

(** X20.  The tests of lines 164-181 let a reply without transport error
    through to the parsing of its body exactly when its status is at most
    299.  Every code below 300 counts as success like 200 does: the
    callback goes on to parse the body, answers that it could not when the
    body does not parse, and otherwise starts with the listing of the
    credentials (or throws when the listing does).  Every code above 299
    ends the callback with one of the reports of a failure, by the status,
    and the brain as it was. *)
Theorem status_up_to_299_is_success (c : Command) (b : Brain) (level vault_path : string)
    (statusCode : Z) :
  truthy (err (reply c)) = false ->
  res_statusCode (reply c) = Some statusCode ->
  let r := run (vault_callback CONFIG c level vault_path) b in
  let text := ToString (body_value (body (reply c))) in
  (statusCode <= 299 ->
     successful (reply c) = true /\
     (JSON_parse text = None ->
        r = (Normal tt,
             {| brain := b;
                trace := [MsgReply [JStr "An error occurred parsing the vault response";
                                    body_value (body (reply c))]] |})) /\
     (forall parsedBody,
        JSON_parse text = Some parsedBody -> parse parsedBody = None ->
        r = (Throw TypeError, {| brain := b; trace := [] |})) /\
     (forall parsedBody lines,
        JSON_parse text = Some parsedBody -> parse parsedBody = Some lines ->
        exists rest,
          effects r =
            RobotSend (name (envelope_user (msg c))) (join LF ("Here ya go:" :: lines))
            :: rest)) /\
  (299 < statusCode ->
     successful (reply c) = false /\
     completion r = Normal tt /\
     brain_after r = b /\
     (statusCode = 400 \/ statusCode = 401 \/ statusCode = 404 ->
        effects r = [MsgSend (not_authorized_text CONFIG (msg c) level vault_path)]) /\
     (statusCode = 503 -> effects r = [MsgSend (sealed_text CONFIG (msg c))]) /\
     (statusCode <> 400 -> statusCode <> 401 -> statusCode <> 404 -> statusCode <> 503 ->
        effects r = unknownError_report (reply c))).
Proof.
  intros He Hs. cbv zeta. unfold successful, run, vault_callback.
  rewrite He, Hs. cbn [negb andb].
  split; intros Hc.
  - destruct (Z.eqb_spec statusCode 401); [lia |].
    destruct (Z.eqb_spec statusCode 400); [lia |].
    destruct (Z.eqb_spec statusCode 404); [lia |].
    destruct (Z.eqb_spec statusCode 503); [lia |].
    destruct (Z.ltb_spec 299 statusCode); [lia |].
    cbn [orb negb andb]. split; [reflexivity |]. split; [| split].
    + intros ->. reflexivity.
    + intros parsedBody -> ->. reflexivity.
    + intros parsedBody lines -> ->.
      unfold effects, bind, emit, ret. cbn [snd trace app].
      destruct (is_nullish parsedBody); cbn [throw snd trace]; [now eexists |].
      unfold robot_brain_set, when.
      destruct (bool_decide _); cbn [snd trace app]; now eexists.
  - destruct (Z.ltb_spec 299 statusCode); [| lia].
    split.
    { destruct (_ || _); [reflexivity |].
      destruct (Z.eqb statusCode 503); reflexivity. }
    destruct (Z.eqb_spec statusCode 401) as [-> | N1];
      [cbn [orb]; repeat split; intros; (reflexivity || lia) |].
    destruct (Z.eqb_spec statusCode 400) as [-> | N2];
      [cbn [orb]; repeat split; intros; (reflexivity || lia) |].
    destruct (Z.eqb_spec statusCode 404) as [-> | N3];
      [cbn [orb]; repeat split; intros; (reflexivity || lia) |].
    cbn [orb].
    destruct (Z.eqb_spec statusCode 503) as [-> | N4];
      [repeat split; intros; (reflexivity || lia) |].
    rewrite unknownError_run. unfold completion, brain_after, effects.
    cbn [fst snd brain trace app].
    repeat split; intros; (reflexivity || lia).
Qed.

End Status.

Lemma status_up_to_299_is_success_witness :
  let c := command "ro" "test" (status_reply 204 body_with_lease) in
  truthy (err (reply c)) = false /\
  res_statusCode (reply c) = Some 204 /\
  exists rest,
    effects (run (vault_callback (RT := example_runtime) example_config c
                    "readonly" "db_test") ∅)
    = RobotSend "dave" (join LF ["Here ya go:"; "lease_duration: 600"]) :: rest.
Proof.
  split; [reflexivity |]. split; [reflexivity |].
  exact (proj2 (proj2 (proj2 (proj1
    (@status_up_to_299_is_success example_runtime example_config
       (command "ro" "test" (status_reply 204 body_with_lease)) ∅
       "readonly" "db_test" 204 eq_refl eq_refl)
    ltac:(vm_compute; discriminate))))
    (JObj [("lease_duration", JNum (Int 600))]) ["lease_duration: 600"]
    eq_refl eq_refl).
Defined.
